(** * Receipt parser: output recovery of [process_receipt]

    A shallow embedding of [process_receipt] of [src/expense_tracker.py]
    (the part that follows the call of the language model): envelope
    extraction of the JSON block with a regular expression, decoding, and the
    repair of a malformed ['total'] field from the receipt text (Path A) or
    from the items (Path B).

    Conventions of the embedding.
    - A Python [str] is a list of characters, and a character is one of the
      code points U+0000 to U+00FF (Rocq's [ascii]).  On these code points
      [\d] is [0-9], [\s] and [str.strip] follow [str.isspace], and the only
      characters that match a letter of [TOTAL:] under [re.IGNORECASE] are
      its two cases.
    - A Python [float] is a binary64 number (Rocq's primitive [float]);
      [float(...)] of a decimal literal and [round(x, 2)] are correctly
      rounded, as CPython's are.
    - Calls of Streamlit ([st.error], [st.write], ...) are recorded in order
      in a log; an uncaught Python exception is the outcome [Raise]. *)

From Stdlib Require Import ZArith NArith String Ascii List Bool Lia.
From Stdlib Require Floats.SpecFloat Floats.FloatOps.
From Stdlib Require Import Floats.PrimFloat.
Import ListNotations.

Set Implicit Arguments.
Set Warnings "-register-all,-inexact-float".

(* ================================================================== *)
(** * Characters and strings *)

Definition str := list ascii.

(** [chars "abc"] is the Python string ['abc']. *)
Definition chars (s : string) : str := list_ascii_of_string s.

Arguments chars : simpl never.

Definition code (c : ascii) : N := N_of_ascii c.

Definition in_range (lo hi : N) (c : ascii) : bool :=
  ((lo <=? code c) && (code c <=? hi))%N.

(** [\d] *)
Definition is_digit (c : ascii) : bool := in_range 48 57 c.

(** [\s], [str.isspace]: TAB..CR, FS..US, SPACE, NEL, NBSP. *)
Definition is_space (c : ascii) : bool :=
  in_range 9 13 c || in_range 28 32 c || (code c =? 133)%N || (code c =? 160)%N.

(** [str.lower] on one character of the ASCII letters (the pattern's
    literals are ASCII letters and a colon). *)
Definition lower (c : ascii) : ascii :=
  if in_range 65 90 c then ascii_of_N (code c + 32) else c.

Definition chr_eqb (a b : ascii) : bool := Ascii.eqb a b.

Arguments chr_eqb : simpl never.
Arguments in_range : simpl never.
Arguments lower : simpl never.

Fixpoint str_eqb (a b : str) : bool :=
  match a, b with
  | [], [] => true
  | x :: a', y :: b' => chr_eqb x y && str_eqb a' b'
  | _, _ => false
  end.

Fixpoint starts_with (p s : str) : bool :=
  match p, s with
  | [], _ => true
  | x :: p', y :: s' => chr_eqb x y && starts_with p' s'
  | _ :: _, [] => false
  end.

(** [sub in s] *)
Fixpoint contains (sub s : str) : bool :=
  starts_with sub s ||
  match s with
  | [] => false
  | _ :: s' => contains sub s'
  end.

(** What follows the last occurrence of [sep] in [s], which is
    [s.split(sep)[-1]] for a separator that cannot overlap itself; [None]
    when [sep] does not occur. *)
Fixpoint after_last (sep s : str) : option str :=
  match s with
  | [] => if starts_with sep [] then Some [] else None
  | _ :: s' =>
      match after_last sep s' with
      | Some r => Some r
      | None => if starts_with sep s then Some (skipn (length sep) s) else None
      end
  end.

Fixpoint lstrip (s : str) : str :=
  match s with
  | c :: s' => if is_space c then lstrip s' else s
  | [] => []
  end.

(** [s.strip()] *)
Definition strip (s : str) : str := rev (lstrip (rev (lstrip s))).

(* ================================================================== *)
(** * Regular expressions

    The two patterns of the source are sequences of character classes, each
    taken once, zero or more times ([*]) or one or more times ([+]); both
    repetitions are greedy and give characters back when the rest of the
    pattern fails (backtracking), and [re.search] returns the match at the
    leftmost position that has one. *)

Inductive quantifier := Once | ZeroOrMore | OneOrMore.

Record piece := Piece
  { cls : ascii -> bool;     (* the character class *)
    rep : quantifier;
    captured : bool }.       (* inside the parenthesised group 1 *)

Definition regex := list piece.

(** Greedy repetition of a class: the longest run first, then shorter ones
    while the continuation [k] (given the run and what is left) fails. *)
Fixpoint greedy (A : Type) (p : ascii -> bool) (s : str)
    (k : str -> str -> option A) : option A :=
  match s with
  | c :: s' =>
      if p c then
        match greedy p s' (fun run rest => k (c :: run) rest) with
        | Some r => Some r
        | None => k [] s
        end
      else k [] s
  | [] => k [] s
  end.

(** A match of the whole pattern at the start of [s]: the text taken by each
    piece, in order. *)
Fixpoint match_here (r : regex) (s : str) : option (list str) :=
  match r with
  | [] => Some []
  | pc :: r' =>
      match rep pc with
      | Once =>
          match s with
          | c :: s' =>
              if cls pc c then option_map (cons [c]) (match_here r' s') else None
          | [] => None
          end
      | ZeroOrMore =>
          greedy (cls pc) s
            (fun run rest => option_map (cons run) (match_here r' rest))
      | OneOrMore =>
          match s with
          | c :: s' =>
              if cls pc c then
                greedy (cls pc) s'
                  (fun run rest => option_map (cons (c :: run)) (match_here r' rest))
              else None
          | [] => None
          end
      end
  end.

(** A match object: where the match starts and the text of each piece. *)
Record re_match := Match { m_start : nat; m_pieces : list str }.

Fixpoint search_from (r : regex) (pos : nat) (s : str) : option re_match :=
  match match_here r s with
  | Some segs => Some (Match pos segs)
  | None =>
      match s with
      | [] => None
      | _ :: s' => search_from r (S pos) s'
      end
  end.

(** [re.search(r, s)] *)
Definition re_search (r : regex) (s : str) : option re_match := search_from r 0 s.

(** [m.group(0)] *)
Definition group0 (m : re_match) : str := concat (m_pieces m).

Fixpoint captured_text (r : regex) (segs : list str) : str :=
  match r, segs with
  | pc :: r', seg :: segs' =>
      (if captured pc then seg else []) ++ captured_text r' segs'
  | _, _ => []
  end.

(** [m.group(1)] of a match of [r] *)
Definition group1 (r : regex) (m : re_match) : str := captured_text r (m_pieces m).

Definition lit (c : ascii) : piece := Piece (chr_eqb c) Once false.
(** a literal under [re.IGNORECASE] *)
Definition lit_i (c : ascii) : piece :=
  Piece (fun x => chr_eqb (lower x) (lower c)) Once false.
(** [.] under [re.DOTALL] *)
Definition any_char (c : ascii) : bool := true.
(** [[\d\.]] *)
Definition digit_or_dot (c : ascii) : bool := is_digit c || chr_eqb c "."%char.

(** [r'\{.*\}'] with [re.DOTALL] *)
Definition JSON_BLOCK_RE : regex :=
  [ lit "{"%char; Piece any_char ZeroOrMore false; lit "}"%char ].

(** [r'TOTAL:\s*([\d\.]+)'] with [re.IGNORECASE] *)
Definition TOTAL_RE : regex :=
  map lit_i (chars "TOTAL:") ++
  [ Piece is_space ZeroOrMore false; Piece digit_or_dot OneOrMore true ].

(* ================================================================== *)
(** * Floating-point numbers

    Python's [float] is binary64.  Conversions go through the exact
    description of a binary64 number as sign, mantissa and exponent
    ([spec_float]); every rounding is to nearest, ties to even. *)

Module Float.
Import SpecFloat.
Local Open Scope Z_scope.

Definition float := PrimFloat.float.
Definition prec : Z := 53.
Definition emax : Z := 1024.

(** The binary64 number nearest to [d * 10^x], for a natural number [d]
    (what [strtod] returns for the digits [d] and the exponent [x]). *)
Definition sf_of_decimal (neg : bool) (d x : Z) : spec_float :=
  match d with
  | Z0 => S754_zero neg
  | Zpos m =>
      if 0 <=? x then binary_round prec emax neg (m * Z.to_pos (10 ^ x)) 0
      else
        let '(q, e, l) := SFdiv_core_binary prec emax d 0 (10 ^ (- x)) 0 in
        binary_round_aux prec emax neg q e l
  | Zneg _ => S754_nan
  end.

Definition of_decimal (neg : bool) (d x : Z) : float :=
  FloatOps.SF2Prim (sf_of_decimal neg d x).

(** [float(z)] for a Python [int]: [None] is [OverflowError]
    (int too large to convert to float). *)
Definition of_int (z : Z) : option float :=
  match binary_normalize prec emax z 0 false with
  | S754_infinity _ => None
  | sf => Some (FloatOps.SF2Prim sf)
  end.

(** [n / d] rounded to the nearest integer, ties to even ([0 <= n], [0 < d]). *)
Definition div_half_even (n d : Z) : Z :=
  let q := n / d in
  match (2 * (n mod d)) ?= d with
  | Lt => q
  | Gt => q + 1
  | Eq => if Z.even q then q else q + 1
  end.

(** [round(x, 2)]: the exact value of [x] is rounded to a whole number of
    hundredths, and that decimal is converted back; NaN and the infinities
    round to themselves. *)
Definition round2 (x : float) : float :=
  match FloatOps.Prim2SF x with
  | S754_finite s m e =>
      let hundredths :=
        if 0 <=? e then Zpos m * 2 ^ e * 100
        else div_half_even (Zpos m * 100) (2 ^ (- e)) in
      of_decimal s hundredths (-2)
  | _ => x
  end.

(** ** [float(s)] for a Python [str] *)

(** The white space [float] strips: TAB..CR and SPACE, and the non-ASCII
    spaces NEL and NBSP. *)
Definition float_space (c : ascii) : bool :=
  in_range 9 13 c || (code c =? 32)%N || (code c =? 133)%N || (code c =? 160)%N.

Fixpoint lstrip_by (p : ascii -> bool) (s : str) : str :=
  match s with
  | c :: s' => if p c then lstrip_by p s' else s
  | [] => []
  end.

Definition strip_by (p : ascii -> bool) (s : str) : str :=
  rev (lstrip_by p (rev (lstrip_by p s))).

(** An underscore is accepted between two digits only, and dropped. *)
Fixpoint drop_underscores (prev : ascii) (s : str) : option str :=
  match s with
  | [] => if chr_eqb prev "_" then None else Some []
  | c :: s' =>
      if chr_eqb c "_" then
        if is_digit prev then drop_underscores c s' else None
      else if chr_eqb prev "_" && negb (is_digit c) then None
      else option_map (cons c) (drop_underscores c s')
  end.

Fixpoint span (p : ascii -> bool) (s : str) : str * str :=
  match s with
  | c :: s' => if p c then let '(a, b) := span p s' in (c :: a, b) else ([], s)
  | [] => ([], [])
  end.

Definition digit_value (c : ascii) : Z := Z.of_N (code c) - 48.

(** the number written by a string of decimal digits *)
Definition digits_value (ds : str) : Z :=
  fold_left (fun acc c => 10 * acc + digit_value c) ds 0.

Definition take_sign (s : str) : bool * str :=
  match s with
  | c :: s' =>
      if chr_eqb c "-" then (true, s')
      else if chr_eqb c "+" then (false, s')
      else (false, s)
  | [] => (false, s)
  end.

(** After the sign: [inf], [infinity], [nan] in any case, or digits with an
    optional point and an optional exponent, with a digit before or after
    the point; nothing may follow. *)
Definition parse_unsigned (neg : bool) (s : str) : option spec_float :=
  let l := map lower s in
  if str_eqb l (chars "inf") || str_eqb l (chars "infinity") then Some (S754_infinity neg)
  else if str_eqb l (chars "nan") then Some S754_nan
  else
    let '(ip, r1) := span is_digit s in
    let '(fp, r2) :=
      match r1 with
      | c :: r => if chr_eqb c "." then span is_digit r else ([], r1)
      | [] => ([], r1)
      end in
    match ip ++ fp with
    | [] => None
    | _ :: _ =>
        let d := digits_value (ip ++ fp) in
        let k := Z.of_nat (length fp) in
        match r2 with
        | [] => Some (sf_of_decimal neg d (- k))
        | c :: r3 =>
            if chr_eqb (lower c) "e" then
              let '(eneg, r4) := take_sign r3 in
              match span is_digit r4 with
              | ((_ :: _) as ed, []) =>
                  let x := digits_value ed in
                  Some (sf_of_decimal neg d ((if eneg then - x else x) - k))
              | _ => None
              end
            else None
        end
    end.

(** [float(s)]: [None] is [ValueError] (could not convert string to float). *)
Definition of_str (s : str) : option float :=
  match drop_underscores Ascii.zero (strip_by float_space s) with
  | None => None
  | Some t =>
      let '(neg, u) := take_sign t in
      option_map FloatOps.SF2Prim (parse_unsigned neg u)
  end.

End Float.

(* ================================================================== *)
(** * Python values, exceptions and Streamlit calls *)

(** The values [json.loads] can return.  A [dict] keeps its keys in
    insertion order. *)
Inductive value :=
| PyNone
| PyBool (b : bool)
| PyInt (z : Z)
| PyFloat (f : Float.float)
| PyStr (s : str)
| PyList (l : list value)
| PyDict (d : list (str * value)).

Definition dict := list (str * value).

(** [d.get(k)], [None] when the key is absent *)
Fixpoint dict_get (d : dict) (k : str) : option value :=
  match d with
  | [] => None
  | (k', v) :: d' => if str_eqb k' k then Some v else dict_get d' k
  end.

(** [d.get(k, default)] *)
Definition dict_get_default (d : dict) (k : str) (default : value) : value :=
  match dict_get d k with
  | Some v => v
  | None => default
  end.

(** [d[k] = v]: the value of an existing key is replaced in place, a new key
    is added at the end. *)
Fixpoint dict_set (d : dict) (k : str) (v : value) : dict :=
  match d with
  | [] => [(k, v)]
  | (k', v') :: d' =>
      if str_eqb k' k then (k', v) :: d' else (k', v') :: dict_set d' k v
  end.

(** [del d[k]] *)
Fixpoint dict_del (d : dict) (k : str) : dict :=
  match d with
  | [] => []
  | (k', v') :: d' =>
      if str_eqb k' k then dict_del d' k else (k', v') :: dict_del d' k
  end.

(** [isinstance(v, (int, float))]; [bool] is a subclass of [int]. *)
Definition isinstance_int_float (v : value) : bool :=
  match v with
  | PyBool _ | PyInt _ | PyFloat _ => true
  | _ => false
  end.

(** [isinstance(v, list)] *)
Definition isinstance_list (v : value) : bool :=
  match v with
  | PyList _ => true
  | _ => false
  end.

Inductive exn :=
| JSONDecodeError (detail : str)
| ValueError
| TypeError
| AttributeError
| OverflowError
| RecursionError.

(** The classes named in the [except] clauses of the source. *)
Inductive exn_class := JSONDecodeError_ | ValueError_ | TypeError_.

(** [isinstance(e, c)]: [JSONDecodeError] is a subclass of [ValueError]. *)
Definition exn_isa (e : exn) (c : exn_class) : bool :=
  match c, e with
  | JSONDecodeError_, JSONDecodeError _ => true
  | ValueError_, (ValueError | JSONDecodeError _) => true
  | TypeError_, TypeError => true
  | _, _ => false
  end.

(** The messages of the source, with the values formatted into them. *)
Inductive message :=
| NoJsonObject                 (* Model output did not contain a valid JSON object (no {} found). *)
| TotalMalformed               (* Model's 'total' field was malformed. Attempting to correct ... *)
| TotalCorrected (total : value)   (* Corrected total to: ... (extracted from original text). *)
| TotalCalculated (total : value)  (* Total not found in text. Calculated total from items: ... *)
| ListTotalRemoved             (* Malformed list found under the 'total' key and removed. *)
| DecodingError (e : exn).     (* JSON Decoding Error: The extracted block was not valid JSON: ... *)

Inductive label :=
| RawModelOutput               (* "Raw Model Output:" *)
| ExtractedJsonString.         (* "Extracted JSON String (Failed to Decode):" *)

Inductive st_call :=
| st_error (m : message)
| st_warning (m : message)
| st_info (m : message)
| st_write (l : label) (text : str).

Inductive outcome (A : Type) :=
| Return (a : A)
| Raise (e : exn).
Arguments Raise {A} e.

(** A computation: the Streamlit calls it made, in order, and how it ended. *)
Definition ui (A : Type) : Type := list st_call * outcome A.

Definition ret {A : Type} (a : A) : ui A := ([], Return a).
Definition raise {A : Type} (e : exn) : ui A := ([], Raise e).
Definition st (c : st_call) : ui unit := ([c], Return tt).
Definition lift {A : Type} (o : outcome A) : ui A := ([], o).

Definition bind (A B : Type) (m : ui A) (k : A -> ui B) : ui B :=
  match m with
  | (log, Return a) => let '(log', o) := k a in (log ++ log', o)
  | (log, Raise e) => (log, Raise e)
  end.

(** [try: m  except (classes): handler] *)
Definition try_except (A : Type) (m : ui A) (classes : list exn_class)
    (handler : exn -> ui A) : ui A :=
  match m with
  | (log, Raise e) =>
      if existsb (exn_isa e) classes
      then let '(log', o) := handler e in (log ++ log', o)
      else m
  | _ => m
  end.

Declare Scope ui_scope.
Delimit Scope ui_scope with ui.
Notation "x <- m ;; k" := (bind m (fun x => k))
  (at level 61, m at next level, right associativity) : ui_scope.
Notation "m ;; k" := (bind m (fun _ => k))
  (at level 61, right associativity) : ui_scope.
Local Open Scope ui_scope.

(** [for x in xs: s = body(x, s)] *)
Fixpoint for_each (A S : Type) (xs : list A) (body : A -> S -> ui S) (s : S) : ui S :=
  match xs with
  | [] => ret s
  | x :: xs' => s' <- body x s ;; for_each xs' body s'
  end.

(** The method [o.get]: only a [dict] has it. *)
Definition method_get (o : value) : ui dict :=
  match o with
  | PyDict d => ret d
  | _ => raise AttributeError
  end.

(** [iter(o)]: a list gives its elements, a dict its keys, a string its
    characters; the other values are not iterable. *)
Definition py_iter (o : value) : ui (list value) :=
  match o with
  | PyList l => ret l
  | PyDict d => ret (map (fun kv => PyStr (fst kv)) d)
  | PyStr s => ret (map (fun c => PyStr [c]) s)
  | _ => raise TypeError
  end.

(** [float(o)] *)
Definition py_float (o : value) : ui Float.float :=
  match o with
  | PyFloat f => ret f
  | PyBool b => ret (if b then PrimFloat.one else PrimFloat.zero)
  | PyInt z =>
      match Float.of_int z with
      | Some f => ret f
      | None => raise OverflowError
      end
  | PyStr s =>
      match Float.of_str s with
      | Some f => ret f
      | None => raise ValueError
      end
  | PyNone | PyList _ | PyDict _ => raise TypeError
  end.

(* ================================================================== *)
(** * [process_receipt] *)

(** lines 109-115: the body of the loop over the items *)
Definition add_item (item : value) (calculated_total : Float.float) : ui Float.float :=
  try_except
    (d <- method_get item ;;
     quantity <- py_float (dict_get_default d (chars "quantity") (PyFloat PrimFloat.zero)) ;;
     price <- py_float (dict_get_default d (chars "price") (PyFloat PrimFloat.zero)) ;;
     ret (PrimFloat.add calculated_total (PrimFloat.mul quantity price)))
    [ValueError_; TypeError_]
    (fun _ => ret calculated_total).

(** lines 93-118: the recovery of a total that is not a number, from the
    receipt text (Fallback 1) or from the items (Fallback 2). *)
Definition recover (d : dict) (receipt_text : str) : ui dict :=
  st (st_warning TotalMalformed) ;;
  match re_search TOTAL_RE receipt_text with
  | Some total_match =>
      try_except
        (f <- py_float (PyStr (group1 TOTAL_RE total_match)) ;;
         st (st_info (TotalCorrected (PyFloat f))) ;;
         ret (dict_set d (chars "total") (PyFloat f)))
        [ValueError_]
        (fun _ => ret (dict_set d (chars "total") (PyFloat PrimFloat.zero)))
  | None =>
      items <- py_iter (dict_get_default d (chars "items") (PyList [])) ;;
      calculated_total <- for_each items add_item PrimFloat.zero ;;
      let total := PyFloat (Float.round2 calculated_total) in
      st (st_info (TotalCalculated total)) ;;
      ret (dict_set d (chars "total") total)
  end.

(** lines 122-124: a total that is a list is removed. *)
Definition cleanup (d : dict) : ui dict :=
  match dict_get d (chars "total") with
  | Some t =>
      if isinstance_list t then
        st (st_warning ListTotalRemoved) ;;
        ret (dict_del d (chars "total"))
      else ret d
  | None => ret d
  end.

(** lines 90-126: the repair of the decoded object, [json_output], against
    the receipt text. *)
Definition repair (json_output : value) (receipt_text : str) : ui value :=
  d <- method_get json_output ;;
  let extracted_total := dict_get_default d (chars "total") PyNone in
  d <- (if negb (isinstance_int_float extracted_total)
        then recover d receipt_text
        else ret d) ;;
  d <- cleanup d ;;
  ret (PyDict d).

(** ["<|assistant|>"] *)
Definition ASSISTANT : str := chars "<|assistant|>".

(** lines 72-73: what follows the last assistant marker, stripped *)
Definition assistant_reply (text_output : str) : str :=
  if contains ASSISTANT text_output then
    strip (match after_last ASSISTANT text_output with
           | Some r => r
           | None => text_output
           end)
  else text_output.

(** lines 78-85: the text from the first brace that has a closing brace
    after it to the last closing brace, [None] when there is no match. *)
Definition extract (text_output : str) : option str :=
  option_map group0 (re_search JSON_BLOCK_RE text_output).

Section Pipeline.

(** [json.loads], of the Python standard library: what it returns or
    raises on a text. *)
Variable json_loads : str -> outcome value.

(** lines 72-133, from the decoded output of the model, [decoded], on. *)
Definition process_receipt (decoded receipt_text : str) : ui value :=
  let text_output := assistant_reply decoded in
  (* [json_string] is the empty string until the match is found *)
  let json_string := match extract text_output with Some b => b | None => [] end in
  try_except
    (match extract text_output with
     | None =>
         st (st_error NoJsonObject) ;;
         st (st_write RawModelOutput text_output) ;;
         ret PyNone
     | Some _ =>
         json_output <- lift (json_loads json_string) ;;
         repair json_output receipt_text
     end)
    [JSONDecodeError_]
    (fun e =>
       st (st_error (DecodingError e)) ;;
       st (st_write ExtractedJsonString json_string) ;;
       st (st_write RawModelOutput text_output) ;;
       ret PyNone).

End Pipeline.

(* ================================================================== *)
(** * A decoder for JSON texts

    [Json.loads] stands for [json.loads] where a concrete run of the pipeline
    is evaluated; the general results below hold for every decoder.  It
    follows the grammar of [json.loads] (objects, arrays, strings with their
    escapes, numbers, [true], [false], [null], [NaN], [Infinity],
    [-Infinity]); the detail of a [JSONDecodeError] is its message without the
    position.  An escape [\uXXXX] above U+00FF names a character outside
    the character model and is not decoded, and there is no limit on the
    nesting depth or on the length of an integer. *)

Module Json.

Definition err {A : Type} (msg : string) : outcome A :=
  Raise (JSONDecodeError (chars msg)).

(** JSON white space: space, TAB, LF, CR *)
Definition ws (c : ascii) : bool :=
  (code c =? 32)%N || (code c =? 9)%N || (code c =? 10)%N || (code c =? 13)%N.

Definition skip_ws (s : str) : str := Float.lstrip_by ws s.

(** the double quote *)
Definition quote : ascii := ascii_of_N 34.

Definition hex_value (c : ascii) : option N :=
  if is_digit c then Some (code c - 48)%N
  else if in_range 97 102 c then Some (code c - 87)%N
  else if in_range 65 70 c then Some (code c - 55)%N
  else None.

Definition hex4 (a b c d : ascii) : option N :=
  match hex_value a, hex_value b, hex_value c, hex_value d with
  | Some x, Some y, Some z, Some w => Some (((x * 16 + y) * 16 + z) * 16 + w)%N
  | _, _, _, _ => None
  end.

Definition escape (c : ascii) : option ascii :=
  if chr_eqb c quote then Some quote
  else if chr_eqb c "\" then Some "\"%char
  else if chr_eqb c "/" then Some "/"%char
  else if chr_eqb c "b" then Some (ascii_of_N 8)
  else if chr_eqb c "f" then Some (ascii_of_N 12)
  else if chr_eqb c "n" then Some (ascii_of_N 10)
  else if chr_eqb c "r" then Some (ascii_of_N 13)
  else if chr_eqb c "t" then Some (ascii_of_N 9)
  else None.

(** The string that starts after an opening quote: its characters (in
    [acc], reversed) and the text after the closing quote. *)
Fixpoint scan_string (s : str) (acc : str) : outcome (str * str) :=
  match s with
  | [] => err "Unterminated string starting at"
  | c :: r =>
      if chr_eqb c quote then Return (rev acc, r)
      else if chr_eqb c "\" then
        match r with
        | [] => err "Unterminated string starting at"
        | e :: r' =>
            if chr_eqb e "u" then
              match r' with
              | h1 :: h2 :: h3 :: h4 :: r'' =>
                  match hex4 h1 h2 h3 h4 with
                  | Some n =>
                      if (n <? 256)%N then scan_string r'' (ascii_of_N n :: acc)
                      else err "Invalid \uXXXX escape"
                  | None => err "Invalid \uXXXX escape"
                  end
              | _ => err "Invalid \uXXXX escape"
              end
            else
              match escape e with
              | Some x => scan_string r' (x :: acc)
              | None => err "Invalid \escape"
              end
        end
      else if (code c <? 32)%N then err "Invalid control character at"
      else scan_string r (c :: acc)
  end.

(** A number at the start of [s]: an optional minus, [0] or digits that do
    not start with [0], an optional point with digits, an optional exponent
    with digits; an [int] without fraction and exponent, a [float]
    otherwise. *)
Definition scan_number (s : str) : option (value * str) :=
  let '(neg, r0) :=
    match s with
    | c :: r => if chr_eqb c "-" then (true, r) else (false, s)
    | [] => (false, s)
    end in
  let '(ip, r1) :=
    match r0 with
    | c :: r => if chr_eqb c "0" then ([c], r) else Float.span is_digit r0
    | [] => ([], r0)
    end in
  match ip with
  | [] => None
  | _ :: _ =>
      let '(fp, r2) :=
        match r1 with
        | c :: r =>
            if chr_eqb c "." then
              match Float.span is_digit r with
              | ([], _) => ([], r1)
              | (ds, r') => (ds, r')
              end
            else ([], r1)
        | [] => ([], r1)
        end in
      let '(ex, r3) :=
        match r2 with
        | c :: r =>
            if chr_eqb (lower c) "e" then
              let '(eneg, r') := Float.take_sign r in
              match Float.span is_digit r' with
              | ([], _) => (None, r2)
              | (ds, r'') =>
                  let x := Float.digits_value ds in
                  (Some (if eneg then (- x)%Z else x), r'')
              end
            else (None, r2)
        | [] => (None, r2)
        end in
      match fp, ex with
      | [], None =>
          let n := Float.digits_value ip in
          Some (PyInt (if neg then (- n)%Z else n), r3)
      | _, _ =>
          let x := match ex with Some x => x | None => 0%Z end in
          Some (PyFloat (Float.of_decimal neg (Float.digits_value (ip ++ fp))
                           (x - Z.of_nat (length fp))), r3)
      end
  end.

Definition keyword (w : string) (v : value) (s : str) : option (value * str) :=
  if starts_with (chars w) s then Some (v, skipn (length (chars w)) s) else None.

Definition first_of (A : Type) (xs : list (option A)) : option A :=
  fold_right (fun x r => match x with Some _ => x | None => r end) None xs.

(** a value that is neither a string, an object nor an array *)
Definition scan_atom (s : str) : outcome (value * str) :=
  match first_of
          [ keyword "null" PyNone s;
            keyword "true" (PyBool true) s;
            keyword "false" (PyBool false) s;
            scan_number s;
            keyword "NaN" (PyFloat PrimFloat.nan) s;
            keyword "Infinity" (PyFloat PrimFloat.infinity) s;
            keyword "-Infinity" (PyFloat PrimFloat.neg_infinity) s ] with
  | Some r => Return r
  | None => err "Expecting value"
  end.

(** [fuel] bounds the number of nested calls; the length of the text is
    enough. *)
Fixpoint scan_value (fuel : nat) (s : str) : outcome (value * str) :=
  match fuel with
  | O => Raise RecursionError
  | S fuel' =>
      match s with
      | c :: r =>
          if chr_eqb c quote then
            match scan_string r [] with
            | Return (t, r') => Return (PyStr t, r')
            | Raise e => Raise e
            end
          else if chr_eqb c "{" then
            match skip_ws r with
            | c' :: r' =>
                if chr_eqb c' "}" then Return (PyDict [], r')
                else scan_members fuel' [] (c' :: r')
            | [] => err "Expecting property name enclosed in double quotes"
            end
          else if chr_eqb c "[" then
            match skip_ws r with
            | c' :: r' =>
                if chr_eqb c' "]" then Return (PyList [], r')
                else scan_elements fuel' [] (c' :: r')
            | [] => err "Expecting value"
            end
          else scan_atom s
      | [] => err "Expecting value"
      end
  end

(** the members of an object, from a key on; [acc] is the dict so far *)
with scan_members (fuel : nat) (acc : dict) (s : str) : outcome (value * str) :=
  match fuel with
  | O => Raise RecursionError
  | S fuel' =>
      match s with
      | c :: r =>
          if chr_eqb c quote then
            match scan_string r [] with
            | Return (k, r1) =>
                match skip_ws r1 with
                | c1 :: r2 =>
                    if chr_eqb c1 ":" then
                      match scan_value fuel' (skip_ws r2) with
                      | Return (v, r3) =>
                          let acc' := dict_set acc k v in
                          match skip_ws r3 with
                          | c3 :: r4 =>
                              if chr_eqb c3 "}" then Return (PyDict acc', r4)
                              else if chr_eqb c3 "," then scan_members fuel' acc' (skip_ws r4)
                              else err "Expecting ',' delimiter"
                          | [] => err "Expecting ',' delimiter"
                          end
                      | Raise e => Raise e
                      end
                    else err "Expecting ':' delimiter"
                | [] => err "Expecting ':' delimiter"
                end
            | Raise e => Raise e
            end
          else err "Expecting property name enclosed in double quotes"
      | [] => err "Expecting property name enclosed in double quotes"
      end
  end

(** the elements of an array, from a value on; [acc] is reversed *)
with scan_elements (fuel : nat) (acc : list value) (s : str) : outcome (value * str) :=
  match fuel with
  | O => Raise RecursionError
  | S fuel' =>
      match scan_value fuel' s with
      | Return (v, r1) =>
          match skip_ws r1 with
          | c1 :: r2 =>
              if chr_eqb c1 "]" then Return (PyList (rev (v :: acc)), r2)
              else if chr_eqb c1 "," then scan_elements fuel' (v :: acc) (skip_ws r2)
              else err "Expecting ',' delimiter"
          | [] => err "Expecting ',' delimiter"
          end
      | Raise e => Raise e
      end
  end.

(** [json.loads(s)] *)
Definition loads (s : str) : outcome value :=
  match scan_value (2 * length s + 2) (skip_ws s) with
  | Return (v, r) =>
      match skip_ws r with
      | [] => Return v
      | _ :: _ => err "Extra data"
      end
  | Raise e => Raise e
  end.

End Json.

(* ================================================================== *)
(** * The vocabulary of the properties *)

(** the value [json_output.get('total')] *)
Definition total_of (d : dict) : value := dict_get_default d (chars "total") PyNone.

(** [a] is the anchor [TOTAL:] in some mix of cases. *)
Definition is_anchor (a : str) : Prop := map lower a = chars "total:".

(** The text after a numeric literal does not go on with a digit or a point. *)
Definition ends_literal (post : str) : Prop :=
  match post with
  | c :: _ => digit_or_dot c = false
  | [] => True
  end.

(** At offset [i] of [text] stands the anchor, then white space (possibly
    none), then the numeric literal [lit], which ends there. *)
Definition anchored_at (text : str) (i : nat) (lit : str) : Prop :=
  exists pre a ws post,
    text = pre ++ a ++ ws ++ lit ++ post /\ length pre = i /\
    is_anchor a /\ forallb is_space ws = true /\
    lit <> [] /\ forallb digit_or_dot lit = true /\ ends_literal post.

(** The text has the anchor followed by the literal [lit] somewhere. *)
Definition anchored (text : str) (lit : str) : Prop :=
  exists i, anchored_at text i lit.

(** The text has the anchor somewhere. *)
Definition has_anchor (text : str) : Prop :=
  exists pre a post, text = pre ++ a ++ post /\ is_anchor a.

(** [s] has a brace-delimited span: an opening brace with a closing brace
    somewhere after it. *)
Definition has_span (s : str) : Prop :=
  exists pre mid post, s = pre ++ "{"%char :: mid ++ "}"%char :: post.

(** The number of points of a literal. *)
Definition count_dots (s : str) : nat :=
  length (filter (fun c => chr_eqb c "."%char) s).

(** [float(v)] as a coercion that may fail: the float, or nothing when
    [float] raises. *)
Definition coerce (v : value) : option Float.float :=
  match py_float v with
  | (_, Return f) => Some f
  | (_, Raise _) => None
  end.

(** [quantity * price] of an item, nothing when one of them cannot be
    coerced; a missing field counts as [0.0]. *)
Definition line_total (item : dict) : option Float.float :=
  match coerce (dict_get_default item (chars "quantity") (PyFloat PrimFloat.zero)),
        coerce (dict_get_default item (chars "price") (PyFloat PrimFloat.zero)) with
  | Some q, Some p => Some (PrimFloat.mul q p)
  | _, _ => None
  end.

(** The sum, from [0.0] and in order, of the line totals of the items that
    have one. *)
Definition items_sum (items : list dict) : Float.float :=
  fold_left
    (fun acc item =>
       match line_total item with
       | Some x => PrimFloat.add acc x
       | None => acc
       end)
    items PrimFloat.zero.

(** No field of the item is an integer too large for a [float]. *)
Definition fits_float (item : dict) : Prop :=
  forall k z, dict_get item k = Some (PyInt z) -> Float.of_int z <> None.

(** JSON text written with single quotes for the double quotes. *)
Definition json_text (s : string) : str :=
  map (fun c => if chr_eqb c "'"%char then Json.quote else c) (chars s).

(** The continuations of the two patterns, named for the proofs. *)

(** what the pattern of the block takes after the opening brace: anything,
    then a closing brace *)
Definition block_tail (run rest : str) : option (list str) :=
  option_map (cons run) (match_here [lit "}"%char] rest).

(** the text taken by a literal of the pattern *)
Definition single (c : ascii) : str := [c].

(** the part of the anchor pattern after the anchor *)
Definition LITERAL_RE : regex :=
  [ Piece is_space ZeroOrMore false; Piece digit_or_dot OneOrMore true ].

(** what the anchor pattern takes after the white space: the literal *)
Definition literal_tail (run rest : str) : option (list str) :=
  option_map (cons run) (match_here [Piece digit_or_dot OneOrMore true] rest).

Definition literal_end (c : ascii) (run rest : str) : option (list str) :=
  option_map (cons (c :: run)) (match_here [] rest).

(** the exceptions the loop over the items catches *)
Definition skipped (e : exn) : bool := existsb (exn_isa e) [ValueError_; TypeError_].

(** the first call of the recovery *)
Definition warned : st_call := st_warning TotalMalformed.

(* ================================================================== *)
(** * Strings and dicts *)

Unset Implicit Arguments.

Lemma chr_eqb_eq (a b : ascii) : chr_eqb a b = true <-> a = b.
Proof. apply Ascii.eqb_eq. Qed.

Lemma chr_eqb_neq (a b : ascii) : chr_eqb a b = false <-> a <> b.
Proof. apply Ascii.eqb_neq. Qed.

Lemma str_eqb_eq (a b : str) : str_eqb a b = true <-> a = b.
Proof.
  revert b; induction a as [|x a IH]; intros [|y b]; simpl; split;
    try congruence; try reflexivity.
  - rewrite andb_true_iff, chr_eqb_eq, IH. intros [-> ->]. reflexivity.
  - intros E. injection E as -> ->.
    rewrite andb_true_iff, chr_eqb_eq, IH. split; reflexivity.
Qed.

Lemma str_eqb_refl (a : str) : str_eqb a a = true.
Proof. apply str_eqb_eq. reflexivity. Qed.

Lemma dict_get_set_same (d : dict) (k : str) (v : value) :
  dict_get (dict_set d k v) k = Some v.
Proof.
  induction d as [|[k' v'] d IH]; simpl.
  - rewrite str_eqb_refl. reflexivity.
  - destruct (str_eqb k' k) eqn:E; simpl; rewrite E; auto.
Qed.

Lemma dict_get_del_same (d : dict) (k : str) : dict_get (dict_del d k) k = None.
Proof.
  induction d as [|[k' v'] d IH]; simpl; auto.
  destruct (str_eqb k' k) eqn:E; simpl; try rewrite E; auto.
Qed.

(* ================================================================== *)
(** * The regular-expression engine *)

Section Greedy.

Variable A : Type.
Variable p : ascii -> bool.

(** When the repetition fails, the continuation fails after every run. *)
Lemma greedy_none (s : str) : forall (k : str -> str -> option A),
  greedy p s k = None ->
  forall run rest, s = run ++ rest -> forallb p run = true -> k run rest = None.
Proof.
  induction s as [|c s IH]; intros k G run rest E F; simpl in G.
  - destruct run; [|discriminate]. simpl in E. subst rest. exact G.
  - destruct run as [|c' run].
    + simpl in E. subst rest.
      destruct (p c); [|exact G].
      destruct (greedy p s _); [discriminate|exact G].
    + simpl in E. injection E as <- ->. simpl in F.
      apply andb_true_iff in F as [Fc F]. rewrite Fc in G.
      destruct (greedy p (run ++ rest) (fun run0 rest0 => k (c :: run0) rest0)) eqn:G';
        [discriminate|].
      exact (IH _ G' run rest eq_refl F).
Qed.

(** When it succeeds, it is with the longest run the continuation accepts. *)
Lemma greedy_some (s : str) : forall (k : str -> str -> option A) (r : A),
  greedy p s k = Some r ->
  exists run rest,
    s = run ++ rest /\ forallb p run = true /\ k run rest = Some r /\
    (forall run' rest', s = run' ++ rest' -> forallb p run' = true ->
       length run < length run' -> k run' rest' = None).
Proof.
  induction s as [|c s IH]; intros k r G; simpl in G.
  - exists [], []. repeat split; auto.
    intros [|] ? E ? L; [simpl in L; lia | discriminate].
  - assert (Hnil : k [] (c :: s) = Some r ->
                   (forall run' rest', s = run' ++ rest' -> forallb p run' = true ->
                      p c = true -> k (c :: run') rest' = None) ->
                   exists run rest,
                     c :: s = run ++ rest /\ forallb p run = true /\ k run rest = Some r /\
                     (forall run' rest', c :: s = run' ++ rest' -> forallb p run' = true ->
                        length run < length run' -> k run' rest' = None)).
    { intros K N. exists [], (c :: s). repeat split; auto.
      intros [|c' run'] rest' E F L; [simpl in L; lia|].
      simpl in E. injection E as <- ->. simpl in F.
      apply andb_true_iff in F as [Fc F]. apply N; auto. }
    destruct (p c) eqn:Pc.
    + destruct (greedy p s (fun run rest => k (c :: run) rest)) eqn:G'.
      * injection G as ->.
        destruct (IH _ _ G') as (run & rest & E & F & K & M).
        exists (c :: run), rest. subst s. repeat split; auto.
        -- simpl. rewrite Pc, F. reflexivity.
        -- intros [|c' run'] rest' E' F' L; [simpl in L; lia|].
           simpl in E'. injection E' as <- E'. simpl in F'.
           apply andb_true_iff in F' as [_ F']. simpl in L.
           apply (M run' rest'); auto. lia.
      * apply Hnil; auto. intros run' rest' E F _.
        exact (greedy_none s _ G' run' rest' E F).
    + apply Hnil; auto. intros. congruence.
Qed.

(** Two ways of cutting a text at the same length are the same. *)
Lemma app_same_length (T : Type) (a b c d : list T) :
  a ++ b = c ++ d -> length a = length c -> a = c /\ b = d.
Proof.
  revert c; induction a as [|x a IH]; intros [|y c] E L; simpl in *;
    try discriminate; auto.
  injection E as -> E. injection L as L.
  destruct (IH _ E L) as [-> ->]. auto.
Qed.

(** The longest accepted run is what the repetition returns. *)
Lemma greedy_longest (s : str) (k : str -> str -> option A) (r : A) run rest :
  s = run ++ rest -> forallb p run = true -> k run rest = Some r ->
  (forall run' rest', s = run' ++ rest' -> forallb p run' = true ->
     length run < length run' -> k run' rest' = None) ->
  greedy p s k = Some r.
Proof.
  intros E F K M.
  destruct (greedy p s k) as [r'|] eqn:G.
  - destruct (greedy_some s k r' G) as (run1 & rest1 & E1 & F1 & K1 & M1).
    destruct (Nat.lt_total (length run) (length run1)) as [L|[L|L]].
    + rewrite (M run1 rest1 E1 F1 L) in K1. discriminate.
    + subst s. destruct (app_same_length _ _ _ _ _ E1 L) as [E2 E3].
      subst run1 rest1. congruence.
    + rewrite (M1 run rest E F L) in K. discriminate.
  - rewrite (greedy_none s k G run rest E F) in K. discriminate.
Qed.

End Greedy.

Section Search.

Variable r : regex.

Lemma search_from_none (s : str) : forall pos,
  search_from r pos s = None ->
  forall pre suf, s = pre ++ suf -> match_here r suf = None.
Proof.
  induction s as [|c s IH]; intros pos S pre suf E; simpl in S.
  - destruct pre; [|discriminate]. simpl in E. subst suf.
    destruct (match_here r []); [discriminate|reflexivity].
  - destruct (match_here r (c :: s)) eqn:M; [discriminate|].
    destruct pre as [|c' pre]; simpl in E.
    + subst suf. exact M.
    + injection E as <- ->. exact (IH _ S pre suf eq_refl).
Qed.

(** [re.search] returns the match at the leftmost position that has one. *)
Lemma search_from_some (s : str) : forall pos m,
  search_from r pos s = Some m ->
  exists pre suf,
    s = pre ++ suf /\ m_start m = pos + length pre /\
    match_here r suf = Some (m_pieces m) /\
    (forall pre1 suf1, s = pre1 ++ suf1 -> length pre1 < length pre ->
       match_here r suf1 = None).
Proof.
  induction s as [|c s IH]; intros pos m S; simpl in S.
  - destruct (match_here r []) eqn:M; [|discriminate].
    injection S as <-. exists [], []. simpl. repeat split; auto; try lia.
  - destruct (match_here r (c :: s)) eqn:M.
    + injection S as <-. exists [], (c :: s). simpl. repeat split; auto; try lia.
    + destruct (IH _ _ S) as (pre & suf & E & P & H & N).
      exists (c :: pre), suf. subst s. simpl. repeat split; auto; try lia.
      intros [|c1 pre1] suf1 E1 L; simpl in E1.
      * subst suf1. exact M.
      * injection E1 as <- E1. simpl in L. apply (N pre1 suf1 E1). lia.
Qed.

Lemma search_from_first (pre suf : str) (segs : list str) : forall pos,
  match_here r suf = Some segs ->
  (forall pre1 suf1, pre ++ suf = pre1 ++ suf1 -> length pre1 < length pre ->
     match_here r suf1 = None) ->
  search_from r pos (pre ++ suf) = Some (Match (pos + length pre) segs).
Proof.
  induction pre as [|c pre IH]; intros pos M N; simpl.
  - replace (pos + 0) with pos by lia.
    destruct suf; simpl; rewrite M; reflexivity.
  - rewrite (N [] (c :: pre ++ suf) eq_refl) by (simpl; lia).
    rewrite IH; auto.
    + f_equal. f_equal. lia.
    + intros pre1 suf1 E L. apply (N (c :: pre1) suf1); simpl; [congruence|lia].
Qed.

End Search.

(* ================================================================== *)
(** * Envelope extraction *)

Lemma forallb_any_char (s : str) : forallb any_char s = true.
Proof. induction s; simpl; auto. Qed.

Lemma block_here_unfold (c : ascii) (s : str) :
  match_here JSON_BLOCK_RE (c :: s) =
  if chr_eqb "{"%char c
  then option_map (cons [c]) (greedy any_char s block_tail)
  else None.
Proof. reflexivity. Qed.

Lemma block_tail_some (run rest : str) (segs : list str) :
  block_tail run rest = Some segs ->
  exists post, rest = "}"%char :: post /\ segs = [run; ["}"%char]].
Proof.
  unfold block_tail. destruct rest as [|c rest]; simpl; [discriminate|].
  destruct (chr_eqb "}"%char c) eqn:E; simpl; [|discriminate].
  apply chr_eqb_eq in E. subst c. intros H. injection H as <-. eauto.
Qed.

Lemma block_tail_brace (run post : str) :
  block_tail run ("}"%char :: post) = Some [run; ["}"%char]].
Proof. reflexivity. Qed.

(** A cut of [mid ++ c :: post] after more than [mid] leaves a part of
    [post]. *)
Lemma cut_after (T : Type) (mid post run rest : list T) (c : T) :
  mid ++ c :: post = run ++ rest -> length mid < length run ->
  exists extra, post = extra ++ rest.
Proof.
  revert run; induction mid as [|x mid IH]; intros [|y run] E L; simpl in *; try lia.
  - injection E as _ E. eauto.
  - injection E as _ E. apply (IH run E). lia.
Qed.

(** The block matched at an opening brace ends at the last closing brace. *)
Lemma block_here_last (mid post : str) :
  ~ In "}"%char post ->
  match_here JSON_BLOCK_RE ("{"%char :: mid ++ "}"%char :: post)
  = Some [["{"%char]; mid; ["}"%char]].
Proof.
  intros N. rewrite block_here_unfold.
  replace (chr_eqb "{"%char "{"%char) with true by reflexivity.
  rewrite (greedy_longest _ any_char _ block_tail [mid; ["}"%char]] mid ("}"%char :: post));
    auto using forallb_any_char.
  intros run' rest' E _ L.
  destruct (block_tail run' rest') eqn:B; [|reflexivity].
  apply block_tail_some in B as (post' & -> & _).
  destruct (cut_after _ _ _ _ _ _ E L) as (extra & ->).
  exfalso. apply N. apply in_or_app. right. left. reflexivity.
Qed.

Lemma block_here_some (s : str) (segs : list str) :
  match_here JSON_BLOCK_RE s = Some segs ->
  exists mid post, s = "{"%char :: mid ++ "}"%char :: post /\
                   concat segs = "{"%char :: mid ++ ["}"%char].
Proof.
  destruct s as [|c s]; [discriminate|]. rewrite block_here_unfold.
  destruct (chr_eqb "{"%char c) eqn:E; [|discriminate].
  apply chr_eqb_eq in E. subst c.
  destruct (greedy any_char s block_tail) eqn:G; [|discriminate].
  simpl. intros H. injection H as <-.
  apply greedy_some in G as (run & rest & -> & _ & B & _).
  apply block_tail_some in B as (post & -> & ->).
  exists run, post. split; reflexivity.
Qed.

(** The first occurrence of a character. *)
Lemma first_occurrence (c : ascii) (s : str) :
  In c s -> exists pre post, s = pre ++ c :: post /\ ~ In c pre.
Proof.
  induction s as [|x s IH]; simpl; [tauto|]. intros H.
  destruct (ascii_dec x c) as [->|D].
  - exists [], s. auto.
  - destruct H as [H|H]; [contradiction|].
    destruct (IH H) as (pre & post & -> & N).
    exists (x :: pre), post. split; [reflexivity|]. simpl. tauto.
Qed.

(** The last occurrence of a character. *)
Lemma last_occurrence (c : ascii) (s : str) :
  In c s -> exists pre post, s = pre ++ c :: post /\ ~ In c post.
Proof.
  intros H. apply in_rev in H.
  destruct (first_occurrence _ _ H) as (pre & post & E & N).
  exists (rev post), (rev pre). split.
  - rewrite <- (rev_involutive s), E, rev_app_distr. simpl.
    rewrite <- app_assoc. reflexivity.
  - rewrite <- in_rev. exact N.
Qed.

(** A text that has a span has one from its first opening brace to its last
    closing brace. *)
Lemma widest_span (s : str) :
  has_span s ->
  exists pre mid post,
    s = pre ++ "{"%char :: mid ++ "}"%char :: post /\
    ~ In "{"%char pre /\ ~ In "}"%char post.
Proof.
  intros (pre0 & mid0 & post0 & ->).
  destruct (first_occurrence "{"%char (pre0 ++ ["{"%char])) as (pre & a & E1 & N1).
  { apply in_or_app. right. left. reflexivity. }
  destruct (last_occurrence "}"%char ("}"%char :: post0)) as (b & post & E2 & N2).
  { left. reflexivity. }
  exists pre, (a ++ mid0 ++ b), post. repeat split; auto.
  change (pre0 ++ "{"%char :: mid0 ++ "}"%char :: post0)
    with (pre0 ++ ["{"%char] ++ mid0 ++ "}"%char :: post0).
  rewrite app_assoc, E1, E2. repeat (rewrite <- app_assoc; simpl). reflexivity.
Qed.

(** No match starts inside a prefix without an opening brace. *)
Lemma no_block_before (pre suf : str) :
  ~ In "{"%char pre ->
  forall pre1 suf1, pre ++ suf = pre1 ++ suf1 -> length pre1 < length pre ->
    match_here JSON_BLOCK_RE suf1 = None.
Proof.
  revert suf; induction pre as [|c pre IH]; intros suf N pre1 suf1 E L;
    simpl in L, E, N; [lia|].
  destruct pre1 as [|c1 pre1]; simpl in E.
  - subst suf1. rewrite block_here_unfold.
    destruct (chr_eqb "{"%char c) eqn:B; [|reflexivity].
    apply chr_eqb_eq in B. exfalso. apply N. left. auto.
  - injection E as _ E. apply (IH suf) with (pre1 := pre1); auto. simpl in L. lia.
Qed.

(** The extracted block is the inclusive span from the first opening brace
    to the last closing brace. *)
Lemma extract_span (pre mid post : str) :
  ~ In "{"%char pre -> ~ In "}"%char post ->
  extract (pre ++ "{"%char :: mid ++ "}"%char :: post)
  = Some ("{"%char :: mid ++ ["}"%char]).
Proof.
  intros N1 N2. unfold extract, re_search.
  rewrite (search_from_first JSON_BLOCK_RE pre _ [["{"%char]; mid; ["}"%char]]).
  - reflexivity.
  - apply block_here_last. exact N2.
  - apply no_block_before. exact N1.
Qed.

Lemma extract_some_span (s b : str) : extract s = Some b -> has_span s.
Proof.
  unfold extract, re_search. destruct (search_from JSON_BLOCK_RE 0 s) as [m|] eqn:S;
    [|discriminate].
  intros _. apply search_from_some in S as (pre & suf & -> & _ & M & _).
  apply block_here_some in M as (mid & post & -> & _).
  exists pre, mid, post. reflexivity.
Qed.

Lemma extract_none_iff (s : str) : extract s = None <-> ~ has_span s.
Proof.
  split.
  - intros E H. destruct (widest_span _ H) as (pre & mid & post & -> & N1 & N2).
    rewrite extract_span in E by assumption. discriminate.
  - intros N. destruct (extract s) eqn:E; [|reflexivity].
    exfalso. apply N. eapply extract_some_span. exact E.
Qed.

(* ================================================================== *)
(** * The anchor pattern *)

Lemma TOTAL_RE_eq : TOTAL_RE = map lit_i (chars "TOTAL:") ++ LITERAL_RE.
Proof. reflexivity. Qed.

(** Literals under [re.IGNORECASE] take one character each, equal up to
    case. *)
Lemma match_lits (cs : str) (r : regex) : forall (a s : str),
  map lower a = map lower cs ->
  match_here (map lit_i cs ++ r) (a ++ s)
  = option_map (app (map single a)) (match_here r s).
Proof.
  induction cs as [|c cs IH]; intros [|x a] s E; simpl in E; try discriminate.
  - simpl. destruct (match_here r s); reflexivity.
  - injection E as Ex E. simpl. rewrite Ex, (proj2 (chr_eqb_eq _ _) eq_refl).
    rewrite IH by exact E. destruct (match_here r s); reflexivity.
Qed.

Lemma match_lits_inv (cs : str) (r : regex) : forall (s : str) (segs : list str),
  match_here (map lit_i cs ++ r) s = Some segs ->
  exists a rest segs',
    s = a ++ rest /\ map lower a = map lower cs /\
    match_here r rest = Some segs' /\ segs = map single a ++ segs'.
Proof.
  induction cs as [|c cs IH]; intros s segs M.
  - exists [], s, segs. auto.
  - simpl in M. destruct s as [|x s]; [discriminate|].
    destruct (chr_eqb (lower x) (lower c)) eqn:Ex; [|discriminate].
    apply chr_eqb_eq in Ex.
    destruct (match_here (map lit_i cs ++ r) s) as [segs0|] eqn:M0; [|discriminate].
    simpl in M. injection M as <-.
    destruct (IH _ _ M0) as (a & rest & segs' & -> & E & M' & ->).
    exists (x :: a), rest, segs'. simpl. rewrite Ex, E. auto.
Qed.

Lemma captured_lits (cs : str) (r : regex) : forall (a : str) (segs : list str),
  length a = length cs ->
  captured_text (map lit_i cs ++ r) (map single a ++ segs) = captured_text r segs.
Proof.
  induction cs as [|c cs IH]; intros [|x a] segs L; simpl in L; try discriminate.
  - reflexivity.
  - simpl. apply IH. lia.
Qed.

(** White space is neither a digit nor a point. *)
Lemma space_not_literal (c : ascii) : is_space c = true -> digit_or_dot c = false.
Proof.
  destruct c as [[] [] [] [] [] [] [] []]; vm_compute; congruence.
Qed.

(** A cut of [mid ++ post] after more than [mid] takes the first character
    of [post]. *)
Lemma cut_longer (T : Type) (mid post run rest : list T) :
  mid ++ post = run ++ rest -> length mid < length run ->
  exists c post', post = c :: post' /\ In c run.
Proof.
  revert run; induction mid as [|x mid IH]; intros [|y run] E L; simpl in *; try lia.
  - subst post. exists y, (run ++ rest). auto.
  - injection E as _ E. destruct (IH run E) as (c & post' & -> & I); [lia|].
    exists c, post'. auto.
Qed.

Lemma forallb_In (p : ascii -> bool) (s : str) (c : ascii) :
  forallb p s = true -> In c s -> p c = true.
Proof. intros F I. rewrite forallb_forall in F. auto. Qed.

Lemma literal_here_unfold (s : str) :
  match_here LITERAL_RE s = greedy is_space s literal_tail.
Proof. reflexivity. Qed.

Lemma literal_tail_unfold (run : str) (c : ascii) (rest : str) :
  literal_tail run (c :: rest)
  = option_map (cons run)
      (if digit_or_dot c then greedy digit_or_dot rest (literal_end c) else None).
Proof. reflexivity. Qed.

(** The white space is taken whole, and then the longest literal. *)
Lemma literal_here (ws lit post : str) :
  forallb is_space ws = true -> lit <> [] -> forallb digit_or_dot lit = true ->
  ends_literal post ->
  match_here LITERAL_RE (ws ++ lit ++ post) = Some [ws; lit].
Proof.
  intros Fw Nl Fl Ep. destruct lit as [|c lit]; [congruence|].
  simpl in Fl. apply andb_true_iff in Fl as [Fc Fl].
  rewrite literal_here_unfold.
  apply greedy_longest with (run := ws) (rest := (c :: lit) ++ post); auto.
  - simpl. rewrite literal_tail_unfold, Fc.
    rewrite (greedy_longest _ digit_or_dot _ (literal_end c) [c :: lit] lit post); auto.
    intros run' rest' E F L.
    destruct (cut_longer _ _ _ _ _ E L) as (x & post' & -> & I).
    simpl in Ep. rewrite (forallb_In _ _ _ F I) in Ep. discriminate.
  - intros run' rest' E F L.
    destruct (cut_longer _ _ _ _ _ E L) as (x & post' & Ex & I).
    simpl in Ex. injection Ex as <- _.
    rewrite (space_not_literal _ (forallb_In _ _ _ F I)) in Fc. discriminate.
Qed.

Lemma literal_here_inv (s : str) (segs : list str) :
  match_here LITERAL_RE s = Some segs ->
  exists ws lit post,
    s = ws ++ lit ++ post /\ forallb is_space ws = true /\ lit <> [] /\
    forallb digit_or_dot lit = true /\ ends_literal post /\ segs = [ws; lit].
Proof.
  rewrite literal_here_unfold. intros G.
  apply greedy_some in G as (ws & rest & -> & Fw & K & _).
  destruct rest as [|c rest]; [discriminate|].
  rewrite literal_tail_unfold in K.
  destruct (digit_or_dot c) eqn:Fc; [|discriminate].
  destruct (greedy digit_or_dot rest (literal_end c)) as [segs0|] eqn:G; [|discriminate].
  simpl in K. injection K as <-.
  apply greedy_some in G as (lit & post & -> & Fl & K & M).
  unfold literal_end in K. simpl in K. injection K as <-.
  exists ws, (c :: lit), post. repeat split; auto; try discriminate.
  - simpl. rewrite Fc, Fl. reflexivity.
  - destruct post as [|x post]; simpl; [exact I|].
    destruct (digit_or_dot x) eqn:Fx; [|reflexivity].
    specialize (M (lit ++ [x]) post).
    rewrite <- app_assoc in M. specialize (M eq_refl).
    rewrite forallb_app, Fl in M. simpl in M. rewrite Fx in M.
    specialize (M eq_refl). rewrite length_app in M. simpl in M.
    unfold literal_end in M. simpl in M. specialize (M ltac:(lia)). discriminate.
Qed.

Lemma anchor_length (a : str) : is_anchor a -> length a = 6.
Proof.
  unfold is_anchor. intros E. rewrite <- (length_map lower), E. reflexivity.
Qed.

Lemma anchor_lower (a : str) : is_anchor a <-> map lower a = map lower (chars "TOTAL:").
Proof. reflexivity. Qed.

(** A match of the pattern at the start of a text is the anchor, white
    space and a literal that ends there, and group 1 is the literal. *)
Lemma total_here (a ws lit post : str) :
  is_anchor a -> forallb is_space ws = true -> lit <> [] ->
  forallb digit_or_dot lit = true -> ends_literal post ->
  match_here TOTAL_RE (a ++ ws ++ lit ++ post) = Some (map single a ++ [ws; lit]).
Proof.
  intros A Fw Nl Fl Ep. rewrite TOTAL_RE_eq, match_lits by exact A.
  rewrite literal_here by assumption. reflexivity.
Qed.

Lemma total_here_inv (s : str) (segs : list str) :
  match_here TOTAL_RE s = Some segs ->
  exists a ws lit post,
    s = a ++ ws ++ lit ++ post /\ is_anchor a /\ forallb is_space ws = true /\
    lit <> [] /\ forallb digit_or_dot lit = true /\ ends_literal post /\
    segs = map single a ++ [ws; lit].
Proof.
  rewrite TOTAL_RE_eq. intros M.
  apply match_lits_inv in M as (a & rest & segs' & -> & A & M & ->).
  apply literal_here_inv in M as (ws & lit & post & -> & Fw & Nl & Fl & Ep & ->).
  exists a, ws, lit, post. repeat split; auto.
Qed.

Lemma captured_total (a ws lit : str) :
  is_anchor a -> captured_text TOTAL_RE (map single a ++ [ws; lit]) = lit.
Proof.
  intros A. rewrite TOTAL_RE_eq, captured_lits.
  - simpl. apply app_nil_r.
  - rewrite (anchor_length _ A). reflexivity.
Qed.

Lemma anchored_at_here (s : str) (lit : str) :
  anchored_at s 0 lit <->
  exists segs, match_here TOTAL_RE s = Some segs /\ captured_text TOTAL_RE segs = lit.
Proof.
  split.
  - intros (pre & a & ws & post & -> & L & A & Fw & Nl & Fl & Ep).
    destruct pre; [|discriminate]. simpl.
    exists (map single a ++ [ws; lit]). split.
    + apply total_here; assumption.
    + apply captured_total; assumption.
  - intros (segs & M & <-).
    apply total_here_inv in M as (a & ws & lit & post & -> & A & Fw & Nl & Fl & Ep & ->).
    rewrite captured_total by assumption.
    exists [], a, ws, post. repeat split; auto.
Qed.

Lemma anchored_at_shift (pre suf lit : str) :
  anchored_at (pre ++ suf) (length pre) lit <-> anchored_at suf 0 lit.
Proof.
  split.
  - intros (pre' & a & ws & post & E & L & H).
    destruct (app_same_length _ _ _ _ _ E (eq_sym L)) as [-> ->].
    exists [], a, ws, post. auto.
  - intros (pre' & a & ws & post & -> & L & H).
    destruct pre'; [|discriminate].
    exists pre, a, ws, post. auto.
Qed.

(** [re.search] finds the leftmost anchored literal. *)
Lemma search_total (text : str) (i : nat) (lit : str) :
  anchored_at text i lit ->
  (forall j lit', j < i -> ~ anchored_at text j lit') ->
  exists m, re_search TOTAL_RE text = Some m /\ m_start m = i /\
            group1 TOTAL_RE m = lit.
Proof.
  intros H N.
  assert (exists pre suf, text = pre ++ suf /\ length pre = i) as (pre & suf & -> & <-).
  { destruct H as (pre & a & ws & post & -> & L & _). eauto. }
  apply anchored_at_shift, anchored_at_here in H as (segs & M & C).
  exists (Match (length pre) segs). unfold re_search.
  rewrite (search_from_first TOTAL_RE pre suf segs 0 M); [auto|].
  intros pre1 suf1 E L.
  destruct (match_here TOTAL_RE suf1) as [segs1|] eqn:M1; [|reflexivity].
  exfalso. apply (N (length pre1) (captured_text TOTAL_RE segs1) L).
  rewrite E. apply anchored_at_shift, anchored_at_here. eauto.
Qed.

Lemma search_total_inv (text : str) (m : re_match) :
  re_search TOTAL_RE text = Some m ->
  anchored_at text (m_start m) (group1 TOTAL_RE m) /\
  (forall j lit', j < m_start m -> ~ anchored_at text j lit').
Proof.
  unfold re_search. intros S.
  apply search_from_some in S as (pre & suf & -> & P & M & N).
  simpl in P. rewrite P. split.
  - apply anchored_at_shift, anchored_at_here. eauto.
  - intros j lit' L (pre1 & a & ws & post & E & L1 & H).
    assert (A : anchored_at (a ++ ws ++ lit' ++ post) 0 lit').
    { exists [], a, ws, post. tauto. }
    apply anchored_at_here in A as (segs & M1 & _).
    rewrite (N pre1 _ E) in M1; [discriminate|lia].
Qed.

Lemma search_total_none (text : str) :
  re_search TOTAL_RE text = None <-> (forall i lit, ~ anchored_at text i lit).
Proof.
  split.
  - intros S i lit (pre & a & ws & post & E & L & H).
    assert (A : anchored_at (a ++ ws ++ lit ++ post) 0 lit).
    { exists [], a, ws, post. tauto. }
    apply anchored_at_here in A as (segs & M & _).
    rewrite (search_from_none TOTAL_RE text 0 S pre _ E) in M. discriminate.
  - intros N. destruct (re_search TOTAL_RE text) as [m|] eqn:S; [|reflexivity].
    apply search_total_inv in S as [A _]. exfalso. exact (N _ _ A).
Qed.

(** Without the anchor there is no match. *)
Lemma no_anchor_no_match (text : str) :
  ~ has_anchor text -> re_search TOTAL_RE text = None.
Proof.
  intros N. apply search_total_none.
  intros i lit (pre & a & ws & post & -> & _ & A & _).
  apply N. exists pre, a, (ws ++ lit ++ post). auto.
Qed.

(* ================================================================== *)
(** * The repair of the total *)

Local Open Scope ui_scope.

Lemma bind_return_inv (A B : Type) (m : ui A) (k : A -> ui B) log b :
  bind m k = (log, Return b) ->
  exists l1 a l2, m = (l1, Return a) /\ k a = (l2, Return b) /\ log = l1 ++ l2.
Proof.
  destruct m as [l1 [a|e]]; simpl; [|discriminate].
  destruct (k a) as [l2 o] eqn:K. intros H. injection H as <- ->.
  exists l1, a, l2. auto.
Qed.

(** A total that is a number is present in the dict and is not a list. *)
Lemma numeric_total_present (d : dict) :
  isinstance_int_float (total_of d) = true ->
  dict_get d (chars "total") = Some (total_of d) /\
  isinstance_list (total_of d) = false.
Proof.
  unfold total_of, dict_get_default.
  destruct (dict_get d (chars "total")) as [[]|]; simpl; intros H;
    try discriminate; auto.
Qed.

(** The final cleanup leaves a dict whose total is a float untouched. *)
Lemma cleanup_set_float (d : dict) (f : Float.float) :
  cleanup (dict_set d (chars "total") (PyFloat f))
  = ret (dict_set d (chars "total") (PyFloat f)).
Proof. unfold cleanup. rewrite dict_get_set_same. reflexivity. Qed.

Lemma bind_ret (A B : Type) (a : A) (k : A -> ui B) : bind (ret a) k = k a.
Proof. unfold bind, ret. simpl. destruct (k a). reflexivity. Qed.

Lemma repair_unfold (d : dict) (text : str) :
  repair (PyDict d) text =
  (d' <- (if negb (isinstance_int_float (total_of d)) then recover d text else ret d) ;;
   d'' <- cleanup d' ;;
   ret (PyDict d'')).
Proof. unfold repair, method_get. rewrite bind_ret. reflexivity. Qed.

(** A total that is a number is kept: no recovery, nothing logged, the
    object is returned as it is. *)
Lemma repair_numeric (d : dict) (text : str) :
  isinstance_int_float (total_of d) = true ->
  repair (PyDict d) text = ([], Return (PyDict d)).
Proof.
  intros H. rewrite repair_unfold, H. simpl.
  destruct (numeric_total_present d H) as [G L].
  unfold cleanup. rewrite G, L. reflexivity.
Qed.

(** Path A: the literal after the anchor is parsed, [0.0] when it does not
    parse. *)
Lemma repair_path_a (d : dict) (text : str) (m : re_match) :
  isinstance_int_float (total_of d) = false ->
  re_search TOTAL_RE text = Some m ->
  repair (PyDict d) text =
  match Float.of_str (group1 TOTAL_RE m) with
  | Some f =>
      ([st_warning TotalMalformed; st_info (TotalCorrected (PyFloat f))],
       Return (PyDict (dict_set d (chars "total") (PyFloat f))))
  | None =>
      ([st_warning TotalMalformed],
       Return (PyDict (dict_set d (chars "total") (PyFloat PrimFloat.zero))))
  end.
Proof.
  intros H S. rewrite repair_unfold, H. unfold recover. rewrite S. simpl.
  destruct (Float.of_str (group1 TOTAL_RE m)) as [f|]; simpl;
    rewrite cleanup_set_float; reflexivity.
Qed.

(** [float(v)] logs nothing. *)
Lemma py_float_pure (v : value) : py_float v = ([], snd (py_float v)).
Proof.
  destruct v; simpl; try reflexivity.
  - destruct (Float.of_int z); reflexivity.
  - destruct (Float.of_str s); reflexivity.
Qed.

(** The body of the loop on an item that is an object. *)
Lemma add_item_dict (d : dict) (acc : Float.float) :
  add_item (PyDict d) acc =
  match snd (py_float (dict_get_default d (chars "quantity") (PyFloat PrimFloat.zero))),
        snd (py_float (dict_get_default d (chars "price") (PyFloat PrimFloat.zero))) with
  | Return q, Return p => ret (PrimFloat.add acc (PrimFloat.mul q p))
  | Return _, Raise e | Raise e, _ => if skipped e then ret acc else raise e
  end.
Proof.
  unfold add_item, method_get. rewrite bind_ret.
  rewrite (py_float_pure (dict_get_default d (chars "quantity") _)).
  rewrite (py_float_pure (dict_get_default d (chars "price") _)).
  destruct (snd (py_float (dict_get_default d (chars "quantity") _))) as [q|e1];
    destruct (snd (py_float (dict_get_default d (chars "price") _))) as [p|e2];
    unfold skipped; simpl; try reflexivity;
    match goal with
    | |- context [exn_isa ?e ValueError_ || _] =>
        destruct (exn_isa e ValueError_ || (exn_isa e TypeError_ || false)); reflexivity
    end.
Qed.

(** The loop over the items logs nothing. *)
Lemma add_item_log (item : value) (acc : Float.float) : fst (add_item item acc) = [].
Proof.
  destruct item; try reflexivity. rewrite add_item_dict.
  destruct (snd (py_float (dict_get_default d (chars "quantity") _))) as [q|e1].
  - destruct (snd (py_float (dict_get_default d (chars "price") _))) as [p|e2];
      [reflexivity | destruct (skipped e2); reflexivity].
  - destruct (skipped e1); reflexivity.
Qed.

Lemma for_each_add_item_log (items : list value) : forall acc,
  fst (for_each items add_item acc) = [].
Proof.
  induction items as [|item items IH]; intros acc; simpl; [reflexivity|].
  pose proof (add_item_log item acc) as L.
  destruct (add_item item acc) as [l [a|e]]; simpl in L; subst l; simpl; [|reflexivity].
  specialize (IH a). destruct (for_each items add_item a). exact IH.
Qed.

Lemma recover_path_a (d : dict) (text : str) (m : re_match) :
  re_search TOTAL_RE text = Some m ->
  recover d text =
  match Float.of_str (group1 TOTAL_RE m) with
  | Some f =>
      ([warned; st_info (TotalCorrected (PyFloat f))],
       Return (dict_set d (chars "total") (PyFloat f)))
  | None => ([warned], Return (dict_set d (chars "total") (PyFloat PrimFloat.zero)))
  end.
Proof.
  intros S. unfold recover. rewrite S. simpl.
  destruct (Float.of_str (group1 TOTAL_RE m)); reflexivity.
Qed.

Lemma py_iter_pure (v : value) : py_iter v = ([], snd (py_iter v)).
Proof. destruct v; reflexivity. Qed.

Lemma recover_path_b (d : dict) (text : str) :
  re_search TOTAL_RE text = None ->
  recover d text =
  match snd (py_iter (dict_get_default d (chars "items") (PyList []))) with
  | Return items =>
      match snd (for_each items add_item PrimFloat.zero) with
      | Return c =>
          ([warned; st_info (TotalCalculated (PyFloat (Float.round2 c)))],
           Return (dict_set d (chars "total") (PyFloat (Float.round2 c))))
      | Raise e => ([warned], Raise e)
      end
  | Raise e => ([warned], Raise e)
  end.
Proof.
  intros S. unfold recover. rewrite S.
  rewrite (py_iter_pure (dict_get_default d (chars "items") (PyList []))).
  destruct (snd (py_iter _)) as [items|e]; [|reflexivity]. simpl.
  pose proof (for_each_add_item_log items PrimFloat.zero) as L.
  destruct (for_each items add_item PrimFloat.zero) as [l [c|e]];
    simpl in L; subst l; reflexivity.
Qed.


(** When the recovery returns, it has set the total to a float. *)
Lemma recover_return (d d' : dict) (text : str) (l : list st_call) :
  recover d text = (l, Return d') ->
  exists f, d' = dict_set d (chars "total") (PyFloat f).
Proof.
  destruct (re_search TOTAL_RE text) as [m|] eqn:S.
  - rewrite (recover_path_a d text m S).
    destruct (Float.of_str _); intros H; injection H as _ <-; eauto.
  - rewrite (recover_path_b d text S).
    destruct (snd (py_iter _)); [destruct (snd (for_each _ _ _))|];
      intros H; try discriminate. injection H as _ <-; eauto.
Qed.


(** The repair of an object whose total is not a number is its recovery. *)
Lemma repair_recover (d : dict) (text : str) :
  isinstance_int_float (total_of d) = false ->
  repair (PyDict d) text =
  (fst (recover d text),
   match snd (recover d text) with
   | Return d' => Return (PyDict d')
   | Raise e => Raise e
   end).
Proof.
  intros H. rewrite repair_unfold, H. simpl negb. cbv iota.
  destruct (recover d text) as [l [d'|e]] eqn:R; [|reflexivity].
  destruct (recover_return _ _ _ _ R) as [f ->].
  unfold bind at 1. rewrite cleanup_set_float, bind_ret. simpl.
  rewrite app_nil_r. reflexivity.
Qed.

(** Only a dict has the method [get]. *)
Lemma repair_not_dict (v : value) (text : str) :
  (forall d, v <> PyDict d) -> repair v text = ([], Raise AttributeError).
Proof. destruct v; intros N; try reflexivity. exfalso. exact (N d eq_refl). Qed.

(** What the repair returns is an object whose total is a number. *)
Lemma repair_return (v v' : value) (text : str) (log : list st_call) :
  repair v text = (log, Return v') ->
  exists d', v' = PyDict d' /\ isinstance_int_float (total_of d') = true.
Proof.
  destruct v as [| | | | | |d];
    try (rewrite repair_not_dict by (intros; discriminate); discriminate).
  destruct (isinstance_int_float (total_of d)) eqn:H.
  - rewrite repair_numeric by exact H. intros E. injection E as _ <-. eauto.
  - rewrite repair_recover by exact H.
    destruct (recover d text) as [l [d'|e]] eqn:R; simpl; [|discriminate].
    intros E. injection E as _ <-.
    destruct (recover_return _ _ _ _ R) as [f ->].
    exists (dict_set d (chars "total") (PyFloat f)). split; [reflexivity|].
    unfold total_of, dict_get_default. rewrite dict_get_set_same. reflexivity.
Qed.

(* ================================================================== *)
(** * Path B on well-formed items *)

(** [float] raises an exception the loop catches, unless its argument is an
    integer too large for a float. *)
Lemma py_float_skipped (v : value) (e : exn) :
  snd (py_float v) = Raise e ->
  (forall z, v = PyInt z -> Float.of_int z <> None) ->
  skipped e = true.
Proof.
  destruct v; simpl; try discriminate;
    try (intros H _; injection H as <-; reflexivity).
  - destruct (Float.of_int z) eqn:O; [discriminate|].
    intros _ N. exfalso. exact (N z eq_refl O).
  - destruct (Float.of_str s); [discriminate|].
    intros H _. injection H as <-. reflexivity.
Qed.

Lemma fits_float_field (item : dict) (k : str) (z : Z) :
  fits_float item ->
  dict_get_default item k (PyFloat PrimFloat.zero) = PyInt z ->
  Float.of_int z <> None.
Proof.
  unfold dict_get_default. intros F E.
  destruct (dict_get item k) as [v|] eqn:G; [|discriminate].
  subst v. exact (F k z G).
Qed.

Lemma coerce_snd (v : value) :
  coerce v = match snd (py_float v) with Return f => Some f | Raise _ => None end.
Proof. unfold coerce. destruct (py_float v) as [l [f|e]]; reflexivity. Qed.

(** On an object without oversized integers, the body of the loop adds the
    line total or skips the item. *)
Lemma add_item_line (item : dict) (acc : Float.float) :
  fits_float item ->
  add_item (PyDict item) acc
  = ret (match line_total item with
         | Some x => PrimFloat.add acc x
         | None => acc
         end).
Proof.
  intros F. rewrite add_item_dict. unfold line_total. rewrite !coerce_snd.
  destruct (snd (py_float (dict_get_default item (chars "quantity") _))) as [q|e1] eqn:Q.
  - destruct (snd (py_float (dict_get_default item (chars "price") _))) as [p|e2] eqn:P;
      [reflexivity|].
    rewrite (py_float_skipped _ _ P); [reflexivity|].
    intros z E. exact (fits_float_field item _ z F E).
  - rewrite (py_float_skipped _ _ Q); [reflexivity|].
    intros z E. exact (fits_float_field item _ z F E).
Qed.

Lemma for_each_lines (items : list dict) : forall acc,
  Forall fits_float items ->
  for_each (map PyDict items) add_item acc
  = ret (fold_left
           (fun acc item =>
              match line_total item with
              | Some x => PrimFloat.add acc x
              | None => acc
              end)
           items acc).
Proof.
  induction items as [|item items IH]; intros acc F; [reflexivity|].
  inversion F as [|? ? Fi Fs]; subst. simpl.
  rewrite add_item_line by exact Fi. rewrite bind_ret. apply IH. exact Fs.
Qed.

(** Path B, where the items are absent or a list of objects without
    oversized integers: the total is the rounded sum of the line totals of
    the items that have one. *)
Lemma repair_path_b (d : dict) (text : str) (items : list dict) :
  isinstance_int_float (total_of d) = false ->
  re_search TOTAL_RE text = None ->
  dict_get_default d (chars "items") (PyList []) = PyList (map PyDict items) ->
  Forall fits_float items ->
  let total := PyFloat (Float.round2 (items_sum items)) in
  repair (PyDict d) text
  = ([st_warning TotalMalformed; st_info (TotalCalculated total)],
     Return (PyDict (dict_set d (chars "total") total))).
Proof.
  intros H S I F total. rewrite repair_recover by exact H.
  rewrite (recover_path_b d text S), I.
  change (snd (py_iter (PyList (map PyDict items)))) with (Return (map PyDict items)).
  cbv iota. rewrite (for_each_lines items PrimFloat.zero F). reflexivity.
Qed.

(* ================================================================== *)
(** * The pipeline *)

Section PipelineFacts.

Variable json_loads : str -> outcome value.

Lemma process_receipt_not_found (decoded text : str) :
  extract (assistant_reply decoded) = None ->
  process_receipt json_loads decoded text
  = ([st_error NoJsonObject; st_write RawModelOutput (assistant_reply decoded)],
     Return PyNone).
Proof. intros E. unfold process_receipt. rewrite E. reflexivity. Qed.

Lemma process_receipt_decoded (decoded text block : str) (v : value) :
  extract (assistant_reply decoded) = Some block ->
  json_loads block = Return v ->
  process_receipt json_loads decoded text
  = try_except (repair v text) [JSONDecodeError_]
      (fun e =>
         st (st_error (DecodingError e)) ;;
         st (st_write ExtractedJsonString block) ;;
         st (st_write RawModelOutput (assistant_reply decoded)) ;;
         ret PyNone).
Proof.
  intros E J. unfold process_receipt. rewrite E, J.
  unfold lift, bind at 1. destruct (repair v text). reflexivity.
Qed.

Lemma process_receipt_raised (decoded text block : str) (e : exn) :
  extract (assistant_reply decoded) = Some block ->
  json_loads block = Raise e ->
  process_receipt json_loads decoded text
  = if exn_isa e JSONDecodeError_
    then ([st_error (DecodingError e); st_write ExtractedJsonString block;
           st_write RawModelOutput (assistant_reply decoded)], Return PyNone)
    else ([], Raise e).
Proof.
  intros E J. unfold process_receipt. rewrite E, J.
  destruct e; reflexivity.
Qed.

(** A successful return of the pipeline is a return of the repair. *)
Lemma process_receipt_return (decoded text : str) (log : list st_call) (v : value) :
  process_receipt json_loads decoded text = (log, Return v) ->
  v <> PyNone ->
  exists block j,
    extract (assistant_reply decoded) = Some block /\
    json_loads block = Return j /\ repair j text = (log, Return v).
Proof.
  intros P N.
  destruct (extract (assistant_reply decoded)) as [block|] eqn:E.
  - destruct (json_loads block) as [j|e] eqn:J.
    + rewrite (process_receipt_decoded _ _ _ _ E J) in P.
      exists block, j. repeat split; auto.
      destruct (repair j text) as [l [v0|e]]; [exact P|].
      destruct e; simpl in P; try discriminate.
      injection P as _ <-. congruence.
    + rewrite (process_receipt_raised _ _ _ _ E J) in P.
      destruct e; simpl in P; try discriminate.
      injection P as _ <-. congruence.
  - rewrite (process_receipt_not_found _ _ E) in P.
    injection P as _ <-. congruence.
Qed.

End PipelineFacts.

(* ================================================================== *)
(** * When a literal parses *)

Lemma literal_char (c : ascii) :
  digit_or_dot c = true ->
  Float.float_space c = false /\ chr_eqb c "_" = false /\
  chr_eqb c "-" = false /\ chr_eqb c "+" = false /\
  chr_eqb (lower c) "i" = false /\ chr_eqb (lower c) "n" = false /\
  chr_eqb (lower c) "e" = false /\
  (is_digit c = false -> chr_eqb c "." = true).
Proof.
  destruct c as [[] [] [] [] [] [] [] []]; vm_compute; intuition congruence.
Qed.

Lemma lstrip_by_head (p : ascii -> bool) (c : ascii) (s : str) :
  p c = false -> Float.lstrip_by p (c :: s) = c :: s.
Proof. intros H. simpl. rewrite H. reflexivity. Qed.

Lemma strip_by_literal (lit : str) :
  forallb digit_or_dot lit = true -> Float.strip_by Float.float_space lit = lit.
Proof.
  intros F. unfold Float.strip_by.
  assert (L : forall s, forallb digit_or_dot s = true ->
                        Float.lstrip_by Float.float_space s = s).
  { intros [|c s] Fs; [reflexivity|]. simpl in Fs.
    apply andb_true_iff in Fs as [Fc _].
    apply lstrip_by_head. apply (literal_char c Fc). }
  rewrite (L lit F), L, rev_involutive; [reflexivity|].
  rewrite forallb_forall in *. intros c I. apply F, in_rev. exact I.
Qed.

Lemma drop_underscores_literal (lit : str) : forall prev,
  chr_eqb prev "_" = false -> forallb digit_or_dot lit = true ->
  Float.drop_underscores prev lit = Some lit.
Proof.
  induction lit as [|c lit IH]; intros prev P F; simpl.
  - rewrite P. reflexivity.
  - simpl in F. apply andb_true_iff in F as [Fc F].
    destruct (literal_char c Fc) as (_ & U & _).
    rewrite U, P. simpl. rewrite (IH c U F). reflexivity.
Qed.

Lemma take_sign_literal (lit : str) :
  forallb digit_or_dot lit = true -> Float.take_sign lit = (false, lit).
Proof.
  destruct lit as [|c lit]; [reflexivity|]. simpl. intros F.
  apply andb_true_iff in F as [Fc _].
  destruct (literal_char c Fc) as (_ & _ & M & P & _). rewrite M, P. reflexivity.
Qed.

Lemma span_spec (p : ascii -> bool) (s : str) :
  s = fst (Float.span p s) ++ snd (Float.span p s) /\
  forallb p (fst (Float.span p s)) = true /\
  match snd (Float.span p s) with
  | c :: _ => p c = false
  | [] => True
  end.
Proof.
  induction s as [|c s IH]; simpl; [auto|].
  destruct (p c) eqn:Pc.
  - destruct (Float.span p s) as [a b]. simpl in *.
    destruct IH as (E & F & H). rewrite Pc, F. repeat split; auto. congruence.
  - simpl. rewrite Pc. auto.
Qed.

Lemma count_dots_app (a b : str) : count_dots (a ++ b) = count_dots a + count_dots b.
Proof. unfold count_dots. rewrite filter_app, length_app. reflexivity. Qed.

Lemma digit_not_dot (c : ascii) : is_digit c = true -> chr_eqb c "." = false.
Proof. destruct c as [[] [] [] [] [] [] [] []]; vm_compute; congruence. Qed.

Lemma count_dots_digits (s : str) : forallb is_digit s = true -> count_dots s = 0.
Proof.
  unfold count_dots. induction s as [|c s IH]; simpl; [reflexivity|].
  intros F. apply andb_true_iff in F as [Fc F].
  rewrite (digit_not_dot c Fc). auto.
Qed.

Lemma existsb_digits (s : str) :
  forallb is_digit s = true -> existsb is_digit s = negb (match s with [] => true | _ => false end).
Proof.
  destruct s as [|c s]; simpl; [reflexivity|]. intros F.
  apply andb_true_iff in F as [-> _]. reflexivity.
Qed.

Lemma not_keyword (lit : str) (w : string) (c : ascii) (w' : str) :
  forallb digit_or_dot lit = true -> chars w = c :: w' ->
  (forall x, digit_or_dot x = true -> chr_eqb (lower x) c = false) ->
  str_eqb (map lower lit) (chars w) = false.
Proof.
  intros F -> N. destruct lit as [|x lit]; [reflexivity|]. simpl in *.
  apply andb_true_iff in F as [Fx _]. rewrite (N x Fx). reflexivity.
Qed.

(** A run of digits and points parses unless it has two points or no
    digit. *)
Lemma literal_parses (lit : str) :
  forallb digit_or_dot lit = true ->
  (Float.of_str lit = None <-> (2 <= count_dots lit \/ existsb is_digit lit = false)).
Proof.
  intros F. unfold Float.of_str.
  rewrite (strip_by_literal lit F), (drop_underscores_literal lit Ascii.zero eq_refl F),
    (take_sign_literal lit F).
  unfold Float.parse_unsigned.
  rewrite (not_keyword lit "inf" "i" (chars "nf") F eq_refl)
    by (intros x Fx; apply (literal_char x Fx)).
  rewrite (not_keyword lit "infinity" "i" (chars "nfinity") F eq_refl)
    by (intros x Fx; apply (literal_char x Fx)).
  rewrite (not_keyword lit "nan" "n" (chars "an") F eq_refl)
    by (intros x Fx; apply (literal_char x Fx)).
  simpl orb. cbv iota.
  destruct (span_spec is_digit lit) as (E1 & F1 & H1).
  destruct (Float.span is_digit lit) as [ip r1]. simpl in E1, F1, H1.
  assert (Fr1 : forallb digit_or_dot r1 = true).
  { rewrite E1, forallb_app in F. apply andb_true_iff in F. tauto. }
  destruct r1 as [|c r].
  - (* digits only *)
    rewrite app_nil_r in *. subst lit.
    rewrite (count_dots_digits ip F1), (existsb_digits ip F1).
    destruct ip; simpl; split; intros H; try discriminate; auto.
    destruct H as [H|H]; [lia|discriminate].
  - simpl in Fr1. apply andb_true_iff in Fr1 as [Fc Fr].
    destruct (literal_char c Fc) as (_ & _ & _ & _ & _ & _ & _ & D).
    rewrite (D H1).
    destruct (span_spec is_digit r) as (E2 & F2 & H2).
    destruct (Float.span is_digit r) as [fp r2]. simpl in E2, F2, H2.
    assert (Cc : count_dots [c] = 1).
    { unfold count_dots. simpl. rewrite (D H1). reflexivity. }
    assert (Ec : existsb is_digit lit = existsb is_digit (ip ++ fp) || existsb is_digit r2).
    { rewrite E1. change (c :: r) with ([c] ++ r). rewrite E2.
      rewrite !existsb_app. simpl. rewrite H1. simpl.
      destruct (existsb is_digit ip), (existsb is_digit fp); reflexivity. }
    assert (Cl : count_dots lit = 1 + count_dots r2).
    { rewrite E1. change (c :: r) with ([c] ++ r). rewrite E2.
      rewrite !count_dots_app, Cc, (count_dots_digits ip F1), (count_dots_digits fp F2).
      reflexivity. }
    assert (Fd : forallb is_digit (ip ++ fp) = true).
    { rewrite forallb_app, F1, F2. reflexivity. }
    rewrite Ec, Cl, (existsb_digits _ Fd).
    destruct r2 as [|c2 r3].
    + (* one point *)
      change (count_dots []) with 0. simpl existsb. rewrite orb_false_r.
      destruct (ip ++ fp); simpl; split; intros H; try discriminate; auto.
      destruct H as [H|H]; [lia|discriminate].
    + (* a second point *)
      assert (Fc2 : digit_or_dot c2 = true).
      { rewrite E2, forallb_app in Fr. apply andb_true_iff in Fr as [_ Fr].
        simpl in Fr. apply andb_true_iff in Fr. tauto. }
      destruct (literal_char c2 Fc2) as (_ & _ & _ & _ & _ & _ & Ee & D2).
      rewrite Ee.
      assert (C2 : 1 <= count_dots (c2 :: r3)).
      { unfold count_dots. simpl. rewrite (D2 H2). simpl. lia. }
      destruct (ip ++ fp); simpl; split; intros _; auto; left; lia.
Qed.

(* ================================================================== *)
(** * Runs of the pipeline *)

(** The block is taken from the first opening brace to the last closing
    one, the prose around it is dropped, and a numeric total is kept. *)
Example run_total_present :
  process_receipt Json.loads (json_text "Sure! Here you go: {'total': 5} Enjoy.")
    (chars "TOTAL: 21.82")
  = ([], Return (PyDict [(chars "total", PyInt 5)])).
Proof. vm_compute. reflexivity. Qed.

(** The reply after the assistant marker is what is parsed. *)
Example run_assistant_marker :
  assistant_reply (json_text "<|user|> {'total': 1} <|assistant|>  {'total': 2}  ")
  = json_text "{'total': 2}".
Proof. vm_compute. reflexivity. Qed.

(** Path A: the total of the receipt text replaces a malformed one. *)
Example run_total_from_text :
  process_receipt Json.loads (json_text "{'total': 'unknown'}")
    (chars "Milk 4.50 Tax: 1.15 TOTAL: 21.82")
  = ([st_warning TotalMalformed; st_info (TotalCorrected (PyFloat 21.82%float))],
     Return (PyDict [(chars "total", PyFloat 21.82%float)])).
Proof. vm_compute. reflexivity. Qed.

(** Path B: Milk 1 at 4.50 and Bread 2 at 3.00 give 10.5; the total is added
    after the items. *)
Example run_total_from_items :
  let milk := PyDict [(chars "name", PyStr (chars "Milk"));
                      (chars "quantity", PyInt 1); (chars "price", PyFloat 4.5%float)] in
  let bread := PyDict [(chars "name", PyStr (chars "Bread"));
                       (chars "quantity", PyInt 2); (chars "price", PyFloat 3%float)] in
  Json.loads (json_text
    "{'items': [{'name': 'Milk', 'quantity': 1, 'price': 4.50}, {'name': 'Bread', 'quantity': 2, 'price': 3.00}]}")
  = Return (PyDict [(chars "items", PyList [milk; bread])]) /\
  repair (PyDict [(chars "items", PyList [milk; bread])]) (chars "Milk 4.50 Bread 2 x 3.00")
  = ([st_warning TotalMalformed; st_info (TotalCalculated (PyFloat 10.5%float))],
     Return (PyDict [(chars "items", PyList [milk; bread]);
                     (chars "total", PyFloat 10.5%float)])).
Proof. repeat apply conj; vm_compute; reflexivity. Qed.

(** Path B skips the items whose fields [float] rejects with [ValueError]
    or [TypeError], and keeps them in the object. *)
Example run_items_skipped :
  let items := PyList [PyDict [(chars "quantity", PyStr (chars "2")); (chars "price", PyFloat 3%float)];
                       PyDict [(chars "quantity", PyStr (chars "two")); (chars "price", PyFloat 3%float)];
                       PyDict [(chars "quantity", PyNone); (chars "price", PyFloat 3%float)];
                       PyDict [(chars "price", PyFloat 9%float)]] in
  repair (PyDict [(chars "items", items)]) (chars "no anchor here")
  = ([st_warning TotalMalformed; st_info (TotalCalculated (PyFloat 6%float))],
     Return (PyDict [(chars "items", items); (chars "total", PyFloat 6%float)])).
Proof. vm_compute. reflexivity. Qed.

(** [round(x, 2)] rounds the exact binary value, ties to even. *)
Example round2_values :
  Float.round2 2.675%float = 2.67%float /\
  Float.round2 0.125%float = 0.12%float /\
  Float.round2 0.375%float = 0.38%float /\
  Float.round2 10.5%float = 10.5%float.
Proof. repeat apply conj; vm_compute; reflexivity. Qed.

(** [float] of a literal is the nearest binary64 number. *)
Example float_values :
  Float.of_str (chars "21.82") = Some 21.82%float /\
  Float.of_str (chars "0.1") = Some 0.1%float /\
  Float.of_str (chars " 1_000.5e-1 ") = Some 100.05%float /\
  Float.of_str (chars "1e400") = Some PrimFloat.infinity /\
  Float.of_str (chars "1.2.3") = None /\
  Float.of_str (chars ".") = None /\
  Float.of_int (2 ^ 53 + 1) = Some 9007199254740992%float /\
  Float.of_int (10 ^ 400) = None.
Proof. repeat apply conj; vm_compute; reflexivity. Qed.

(* ================================================================== *)
(** * Properties of the pipeline *)

(** C10. A ['total'] that is a JSON boolean passes the test
    [isinstance(extracted_total, (int, float))]: the repair triggers no
    recovery path, logs nothing, and returns the object unchanged, the
    boolean still under ['total']. *)
Theorem repair_bool_total_kept (d : dict) (b : bool) (text : str) :
  dict_get d (chars "total") = Some (PyBool b) ->
  repair (PyDict d) text = ([], Return (PyDict d)).
Proof.
  intros G. apply repair_numeric.
  unfold total_of, dict_get_default. rewrite G. reflexivity.
Qed.

Lemma repair_bool_total_kept_witness :
  repair (PyDict [(chars "total", PyBool true); (chars "items", PyList [])])
         (chars "TOTAL: 21.82")
  = ([], Return (PyDict [(chars "total", PyBool true); (chars "items", PyList [])])).
Proof.
  apply (repair_bool_total_kept
           [(chars "total", PyBool true); (chars "items", PyList [])] true).
  reflexivity.
Defined.

(** C8. The repair is idempotent on what it returns: an object returned by
    [repair] has a numeric total, and repairing it again with the same
    receipt text returns it unchanged (so its total is unchanged) and
    logs nothing. *)
Theorem repair_idempotent (v v' : value) (text : str) (log : list st_call) :
  repair v text = (log, Return v') ->
  repair v' text = ([], Return v').
Proof.
  intros R. destruct (repair_return _ _ _ _ R) as (d' & -> & H).
  apply repair_numeric. exact H.
Qed.

Lemma repair_idempotent_witness :
  repair (PyDict [(chars "total", PyFloat 21.82%float)]) (chars "TOTAL: 21.82")
  = ([], Return (PyDict [(chars "total", PyFloat 21.82%float)])).
Proof.
  apply (repair_idempotent
           (PyDict [(chars "total", PyStr (chars "unknown"))])
           (PyDict [(chars "total", PyFloat 21.82%float)])
           (chars "TOTAL: 21.82")
           [st_warning TotalMalformed; st_info (TotalCorrected (PyFloat 21.82%float))]).
  vm_compute. reflexivity.
Defined.



Section Claims.

Variable json_loads : str -> outcome value.

(** C4. Whenever the pipeline returns an object (a result that is not
    [None], the error result), the object has a ['total'] and it is a
    number in the sense of the source's own test,
    [isinstance(total, (int, float))]: present, not a list, not a
    string. *)
Theorem process_receipt_total_numeric
    (decoded text : str) (log : list st_call) (v : value) :
  process_receipt json_loads decoded text = (log, Return v) ->
  v <> PyNone ->
  exists d t,
    v = PyDict d /\ dict_get d (chars "total") = Some t /\
    isinstance_int_float t = true /\ isinstance_list t = false /\
    (forall s, t <> PyStr s).
Proof.
  intros P N.
  destruct (process_receipt_return json_loads _ _ _ _ P N) as (block & j & _ & _ & R).
  destruct (repair_return _ _ _ _ R) as (d & -> & H).
  destruct (numeric_total_present d H) as [G L].
  exists d, (total_of d). repeat split; auto.
  intros s E. rewrite E in H. discriminate.
Qed.


End Claims.

Lemma process_receipt_total_numeric_witness :
  exists d t,
    PyDict [(chars "total", PyFloat 21.82%float)] = PyDict d /\
    dict_get d (chars "total") = Some t /\
    isinstance_int_float t = true /\ isinstance_list t = false /\
    (forall s, t <> PyStr s).
Proof.
  apply (process_receipt_total_numeric Json.loads
           (json_text "Sure! Here you go: {'total': 'unknown'} Bye.")
           (chars "Milk 4.50 TOTAL: 21.82")
           [st_warning TotalMalformed; st_info (TotalCorrected (PyFloat 21.82%float))]
           (PyDict [(chars "total", PyFloat 21.82%float)])).
  - vm_compute. reflexivity.
  - discriminate.
Defined.


(** C1. Exceptions of the loop over the items leave [process_receipt].  On
    a model output whose ['items'] is a number the iteration raises
    [TypeError] outside every [try]; on a list of non-objects, or on a
    string, [item.get] raises [AttributeError], and on a quantity that is an
    integer too large for a float [float] raises [OverflowError], neither of
    which the clause [except (ValueError, TypeError)] catches; the outer
    clause catches [JSONDecodeError] only. *)
Theorem process_receipt_items_fault :
  process_receipt Json.loads (json_text "{'items': 5}") (chars "Milk 4.50")
  = ([st_warning TotalMalformed], Raise TypeError) /\
  process_receipt Json.loads (json_text "{'items': ['Milk', 'Bread']}") (chars "Milk 4.50")
  = ([st_warning TotalMalformed], Raise AttributeError) /\
  process_receipt Json.loads (json_text "{'items': 'Milk'}") (chars "Milk 4.50")
  = ([st_warning TotalMalformed], Raise AttributeError) /\
  process_receipt Json.loads
    (json_text "{'items': [{'quantity': 1" ++ repeat "0"%char 400 ++ json_text ", 'price': 1}]}")
    (chars "Milk 4.50")
  = ([st_warning TotalMalformed], Raise OverflowError).
Proof. repeat apply conj; vm_compute; reflexivity. Qed.

(** C3. An item that cannot be coerced is not always skipped: after the
    item Milk, the item ["Bread"], which is not an object, makes the repair
    raise [AttributeError] where the sum of the coercible items is 4.50; and
    a quantity that is an integer too large for a float makes it raise
    [OverflowError].  Neither is caught by
    [except (ValueError, TypeError)]. *)
Theorem repair_item_not_skipped :
  let milk := PyDict [(chars "name", PyStr (chars "Milk"));
                      (chars "quantity", PyInt 1);
                      (chars "price", PyFloat 4.5%float)] in
  Json.loads (json_text "{'items': [{'name': 'Milk', 'quantity': 1, 'price': 4.50}, 'Bread']}")
  = Return (PyDict [(chars "items", PyList [milk; PyStr (chars "Bread")])]) /\
  repair (PyDict [(chars "items", PyList [milk; PyStr (chars "Bread")])])
         (chars "Milk 4.50 Bread")
  = ([st_warning TotalMalformed], Raise AttributeError) /\
  repair (PyDict [(chars "items",
                   PyList [PyDict [(chars "quantity", PyInt (10 ^ 400));
                                   (chars "price", PyInt 1)]])])
         (chars "Milk 4.50 Bread")
  = ([st_warning TotalMalformed], Raise OverflowError).
Proof. repeat apply conj; vm_compute; reflexivity. Qed.

(** C6, as stated, fails: the text [} {] has an opening and a closing brace,
    and nothing is extracted from it. *)
Lemma extract_not_found_cex :
  ~ (extract (chars "} {") = None <->
     (~ In "{"%char (chars "} {") \/ ~ In "}"%char (chars "} {"))).
Proof.
  intros [H _]. destruct (H eq_refl) as [N|N]; apply N; vm_compute; tauto.
Qed.

(** C6, amended. The extracted block is the inclusive span from the first
    opening brace to the last closing brace whenever the text has an opening
    brace with a closing brace somewhere after it; nothing is extracted
    exactly when it has no such pair (no opening brace, no closing brace, or
    every closing brace before the first opening one); and then the
    pipeline reports that no JSON object was found, writes the raw model
    output, and returns [None] without raising. *)
Theorem extract_envelope (s : str) :
  (forall pre mid post,
     s = pre ++ "{"%char :: mid ++ "}"%char :: post ->
     ~ In "{"%char pre -> ~ In "}"%char post ->
     extract s = Some ("{"%char :: mid ++ ["}"%char])) /\
  (extract s = None <-> ~ has_span s) /\
  (forall json_loads decoded text,
     assistant_reply decoded = s -> extract s = None ->
     process_receipt json_loads decoded text
     = ([st_error NoJsonObject; st_write RawModelOutput s], Return PyNone)).
Proof.
  split; [|split].
  - intros pre mid post -> N1 N2. apply extract_span; assumption.
  - apply extract_none_iff.
  - intros json_loads decoded text <- E.
    apply process_receipt_not_found. exact E.
Qed.

Lemma extract_envelope_witness :
  extract (json_text "Sure! Here you go: {'total': {'net': 5}} Bye.")
  = Some (json_text "{'total': {'net': 5}}") /\
  process_receipt Json.loads (chars "} {") (chars "TOTAL: 21.82")
  = ([st_error NoJsonObject; st_write RawModelOutput (chars "} {")], Return PyNone).
Proof.
  split.
  - apply (proj1 (extract_envelope
                    (json_text "Sure! Here you go: {'total': {'net': 5}} Bye."))
             (chars "Sure! Here you go: ") (json_text "'total': {'net': 5}")
             (chars " Bye.")).
    + reflexivity.
    + vm_compute. intuition discriminate.
    + vm_compute. intuition discriminate.
  - apply (proj2 (proj2 (extract_envelope (chars "} {")))); reflexivity.
Defined.

(** C2, as stated, fails: in [SUBTOTAL: 20.67 TOTAL: 21.82] the anchor is
    followed by the literal 21.82, and the repair takes 20.67, the literal
    of the leftmost match (inside [SUBTOTAL:]). *)
Lemma repair_total_from_text_cex :
  ~ (forall d text,
       isinstance_int_float (total_of d) = false ->
       anchored text (chars "21.82") ->
       exists log d',
         repair (PyDict d) text = (log, Return (PyDict d')) /\
         dict_get d' (chars "total") = Some (PyFloat 21.82%float)).
Proof.
  intros H.
  destruct (H [(chars "total", PyStr (chars "unknown"))]
              (chars "SUBTOTAL: 20.67 TOTAL: 21.82") eq_refl)
    as (log & d' & R & G).
  - exists 16, (chars "SUBTOTAL: 20.67 "), (chars "TOTAL:"), (chars " "), [].
    repeat split; try reflexivity. discriminate.
  - vm_compute in R. injection R as _ <-. vm_compute in G.
    apply (f_equal (fun o => match o with
                             | Some (PyFloat f) => PrimFloat.eqb f 21.82%float
                             | _ => false
                             end)) in G.
    vm_compute in G. discriminate.
Qed.

(** C2, amended. When the total is not a number and the leftmost place of
    the receipt text where the anchor [TOTAL:] (in any case) is followed by
    optional white space and a numeric literal has the literal [21.82], the
    repair sets the total to the float 21.82, taken from the text. *)
Theorem repair_total_from_text (d : dict) (text : str) (i : nat) :
  isinstance_int_float (total_of d) = false ->
  anchored_at text i (chars "21.82") ->
  (forall j lit, j < i -> ~ anchored_at text j lit) ->
  repair (PyDict d) text
  = ([st_warning TotalMalformed; st_info (TotalCorrected (PyFloat 21.82%float))],
     Return (PyDict (dict_set d (chars "total") (PyFloat 21.82%float)))) /\
  dict_get (dict_set d (chars "total") (PyFloat 21.82%float)) (chars "total")
  = Some (PyFloat 21.82%float).
Proof.
  intros H A N. split; [|apply dict_get_set_same].
  destruct (search_total text i _ A N) as (m & S & _ & G).
  rewrite (repair_path_a d text m H S), G. reflexivity.
Qed.

Lemma repair_total_from_text_witness :
  repair (PyDict [(chars "total", PyStr (chars "unknown")); (chars "items", PyList [])])
         (chars "Total: N/A  total:  21.82 thanks")
  = ([st_warning TotalMalformed; st_info (TotalCorrected (PyFloat 21.82%float))],
     Return (PyDict [(chars "total", PyFloat 21.82%float); (chars "items", PyList [])])).
Proof.
  apply (proj1 (repair_total_from_text
                  [(chars "total", PyStr (chars "unknown")); (chars "items", PyList [])]
                  (chars "Total: N/A  total:  21.82 thanks") 12
                  eq_refl
                  (proj1 (search_total_inv (chars "Total: N/A  total:  21.82 thanks")
                            (Match 12 (map single (chars "total:") ++
                                       [chars "  "; chars "21.82"]))
                            eq_refl))
                  (proj2 (search_total_inv (chars "Total: N/A  total:  21.82 thanks")
                            (Match 12 (map single (chars "total:") ++
                                       [chars "  "; chars "21.82"]))
                            eq_refl)))).
Defined.

(** C9, as stated, fails: after [TOTAL:] in [TOTAL: 1.2.3] the pattern
    matches the literal [1.2.3], which has two points. *)
Lemma total_literal_points_cex :
  ~ (forall m, re_search TOTAL_RE (chars "TOTAL: 1.2.3") = Some m ->
               count_dots (group1 TOTAL_RE m) <= 1).
Proof.
  intros H.
  specialize (H (Match 0 (map single (chars "TOTAL:") ++ [chars " "; chars "1.2.3"]))
                eq_refl).
  vm_compute in H. lia.
Qed.

(** C9, amended. The literal Path A matches after the anchor is a non-empty
    run of digits and points, with any number of points; and whenever
    [float] cannot parse it, the repair sets the total to [0.0] and returns,
    without raising. *)
Theorem repair_literal_fallback (d : dict) (text : str) (m : re_match) :
  isinstance_int_float (total_of d) = false ->
  re_search TOTAL_RE text = Some m ->
  group1 TOTAL_RE m <> [] /\
  forallb digit_or_dot (group1 TOTAL_RE m) = true /\
  (Float.of_str (group1 TOTAL_RE m) = None ->
   repair (PyDict d) text
   = ([st_warning TotalMalformed],
      Return (PyDict (dict_set d (chars "total") (PyFloat PrimFloat.zero))))).
Proof.
  intros H S.
  destruct (search_total_inv text m S) as [(pre & a & ws & post & _ & _ & _ & _ & Nl & Fl & _) _].
  repeat split; auto.
  intros P. rewrite (repair_path_a d text m H S), P. reflexivity.
Qed.

Lemma repair_literal_fallback_witness :
  chars "1.2.3" <> [] /\
  forallb digit_or_dot (chars "1.2.3") = true /\
  repair (PyDict [(chars "total", PyList [PyInt 1; PyInt 2])]) (chars "TOTAL: 1.2.3")
  = ([st_warning TotalMalformed],
     Return (PyDict [(chars "total", PyFloat PrimFloat.zero)])).
Proof.
  destruct (repair_literal_fallback
              [(chars "total", PyList [PyInt 1; PyInt 2])] (chars "TOTAL: 1.2.3")
              (Match 0 (map single (chars "TOTAL:") ++ [chars " "; chars "1.2.3"]))
              eq_refl eq_refl) as (A & B & C).
  exact (conj A (conj B (C eq_refl))).
Defined.
